(** * Management commands of edx-platform: a shallow embedding

    The development follows three Django management commands:

    - [expire_old_entitlements]
      (common/djangoapps/entitlements/management/commands/expire_old_entitlements.py),
    - [sync_courses]
      (cms/djangoapps/contentstore/management/commands/sync_courses.py),
    - [send_verification_expiry_email], of which the repository fragment
      holds the test-suite only
      (lms/djangoapps/verify_student/management/commands/tests/test_send_verification_expiry_email.py).

    and the pytest hook [pytest_configure] of common/lib/conftest.py.

    Commands are functions from the state of the world (database tables,
    task queue, mail outbox, log) to a result: either the new state or the
    Python exception that ended the run. *)

From Stdlib Require Import ZArith Lia.
From Stdlib Require Import DecimalString QArith Qround.
From Stdlib Require DecimalZ.
From stdpp Require Import base decidable option list numbers gmap strings.

Local Open Scope Z_scope.

(** ** Python values and effects shared by the commands *)

Module Py.

(** The exceptions that the modelled code raises or lets through. *)
Inductive exn : Type :=
| ZeroDivisionError
| InvalidKeyError
| CommandError (message : string).

(** The outcome of running Python code: a value, or an uncaught exception. *)
Inductive result (A : Type) : Type :=
| Ok (value : A)
| Raise (e : exn).

Arguments Ok {A} value.
Arguments Raise {A} e.

Definition bind {A B : Type} (r : result A) (k : A -> result B) : result B :=
  match r with
  | Ok a => k a
  | Raise e => Raise e
  end.

Definition is_ok {A : Type} (r : result A) : Prop :=
  match r with
  | Ok _ => True
  | Raise _ => False
  end.

(** A process running a management command exits with status 0 when
    [handle] returns and with a non-zero status when an exception leaves
    it (Django prints a [CommandError] and exits with status 1). *)
Definition exit_status {A : Type} (r : result A) : Z :=
  match r with
  | Ok _ => 0
  | Raise _ => 1
  end.

(** [a / b] on Python 2 integers (the modules import [absolute_import]
    from [__future__], not [division]): the quotient rounded towards
    minus infinity, and [ZeroDivisionError] when [b] is zero.  [Z.div]
    rounds the same way. *)
Definition floordiv (a b : Z) : result Z :=
  if decide (b = 0) then Raise ZeroDivisionError else Ok (a / b).

(** [range(n)]: 0, 1, ..., n-1, empty when [n <= 0]. *)
Definition range (n : Z) : list Z := seqZ 0 n.

(** [str(n)] of an integer: its decimal numeral. *)
Definition str (n : Z) : string := NilZero.string_of_int (Z.to_int n).

(** Records of the [logging] module: level, message template, arguments. *)
Inductive level : Type := INFO | WARNING.

Inductive arg : Type :=
| Int (n : Z)
| Str (s : string).

Record LogRecord : Type := mkLog {
  log_level : level;
  log_msg : string;
  log_args : list arg
}.

(** [int(s)] of a decimal numeral: [None] stands for [ValueError]. *)
Definition int_of_str (s : string) : option Z :=
  Z.of_int <$> NilZero.int_of_string s.

#[global] Instance level_eq_dec : EqDecision level.
Proof. solve_decision. Defined.

End Py.

Export Py (Ok, Raise).

#[export] Instance result_ret : MRet Py.result := @Py.Ok.
#[export] Instance result_bind : MBind Py.result :=
  fun A B k r => Py.bind r k.

(** ** [expire_old_entitlements] *)

Module ExpireOldEntitlements.

(** A row of the [CourseEntitlement] table; the command only counts rows. *)
Record CourseEntitlement : Type := { entitlement_id : Z }.

(** The parsed command line: [-c/--commit] and [--batch-size]. *)
Record Options : Type := {
  opt_commit : bool;
  opt_batch_size : Z
}.

(** A call [expire_old_entitlements.delay(start, end, logid=...)]. *)
Record Task : Type := {
  start : Z;
  end_ : Z;
  logid : string
}.

Record World : Type := {
  entitlements : list CourseEntitlement;
  task_queue : list Task;
  log : list Py.LogRecord
}.

Definition logger_info (msg : string) (args : list Py.arg) (w : World) : World :=
  {| entitlements := entitlements w;
     task_queue := task_queue w;
     log := log w ++ [Py.mkLog Py.INFO msg args] |}.

Definition delay (t : Task) (w : World) : World :=
  {| entitlements := entitlements w;
     task_queue := task_queue w ++ [t];
     log := log w |}.

(** [CourseEntitlement.objects.count()] *)
Definition count (w : World) : Z := Z.of_nat (length (entitlements w)).

(** [batch_size = max(1, options.get('batch_size'))] *)
Definition batch_size (options : Options) : Z := Z.max 1 (opt_batch_size options).

(** [num_batches = ((total - 1) / batch_size + 1) if total > 0 else 0] *)
Definition num_batches (total batch_size : Z) : Py.result Z :=
  if decide (0 < total)
  then q ← Py.floordiv (total - 1) batch_size; Ok (q + 1)
  else Ok 0.

(** The body of the [for batch_num in range(num_batches)] loop. *)
Definition batch_task (total batch_size batch_num : Z) : Task :=
  let start := batch_num * batch_size + 1 in
  let end_ := Z.min (start + batch_size) (total + 1) in
  {| start := start; end_ := end_; logid := Py.str batch_num |}.

Definition enqueue_batch (total batch_size : Z) (w : World) (batch_num : Z) : World :=
  delay (batch_task total batch_size batch_num) w.

(** [Command.handle] *)
Definition handle (options : Options) (w : World) : Py.result World :=
  let w := logger_info "Looking for entitlements which may be expirable." [] w in
  let total := count w in
  let batch_size := batch_size options in
  num_batches ← num_batches total batch_size;
  if opt_commit options then
    let w := logger_info "Enqueuing %d entitlement expiration tasks."
                         [Py.Int num_batches] w in
    let w := foldl (enqueue_batch total batch_size) w (Py.range num_batches) in
    Ok (logger_info "Done. Successfully enqueued %d tasks." [Py.Int num_batches] w)
  else
    Ok (logger_info
          "Found %d batches. To enqueue entitlement expiration tasks, pass the -c or --commit flags."
          [Py.Int num_batches] w).

(** The ceiling of the rational [n / b], as in the description of the
    batcher ("ceil(N/B) batches"). *)
Definition ceil_div (n b : Z) : Z := Qceiling (inject_Z n / inject_Z b).

(** The identifiers a task is asked to look at: [start, end). *)
Definition ids_of (t : Task) : list Z := seqZ (start t) (end_ t - start t).

(** The tasks a commit run hands to Celery. *)
Definition batches (total batch_size : Z) : list Task :=
  match num_batches total batch_size with
  | Ok n => batch_task total batch_size <$> Py.range n
  | Raise _ => []
  end.

(** A database with [n] entitlements (ids 1 to [n]), an empty task queue
    and an empty log. *)
Definition world_with (n : Z) : World :=
  {| entitlements := (fun i => {| entitlement_id := i |}) <$> seqZ 1 n;
     task_queue := [];
     log := [] |}.

End ExpireOldEntitlements.

(** ** [sync_courses] *)

Module SyncCourses.

(** A row of [django.contrib.auth.models.User]. *)
Record User : Type := {
  user_id : Z;
  username : string;
  email : string
}.

(** [opaque_keys.edx.keys.CourseKey]: organisation, course number, run. *)
Record CourseKey : Type := mkCourseKey {
  org : string;
  course : string;
  run : string
}.

#[export] Instance CourseKey_eq_dec : EqDecision CourseKey.
Proof. solve_decision. Defined.

#[export] Instance CourseKey_countable : Countable CourseKey :=
  inj_countable'
    (fun k => (org k, course k, run k))
    (fun t => mkCourseKey t.1.1 t.1.2 t.2)
    (fun k => match k with mkCourseKey _ _ _ => eq_refl end).

(** An entry of the list returned by [get_course_runs()]: a dictionary
    read with [course_run.get('key')] and [course_run.get('title')],
    each [None] when the entry lacks it. *)
Record CourseRun : Type := {
  key : option string;
  title : option string
}.

(** The [fields] dictionary built by the command. *)
Record Fields : Type := { display_name : option string }.

(** [ModuleStoreEnum.Type] *)
Inductive StoreType : Type := split | mongo.

(** A course of the modulestore. *)
Record Course : Type := {
  id : CourseKey;
  store_type : StoreType;
  fields : Fields;
  creator : User
}.

(** The modulestore, the calls made to [create_new_course_in_store]
    (which course, in call order) and the log. *)
Record World : Type := {
  modulestore : gmap CourseKey Course;
  create_calls : list CourseKey;
  log : list Py.LogRecord
}.

Definition logger (lvl : Py.level) (msg : string) (args : list Py.arg) (w : World) : World :=
  {| modulestore := modulestore w;
     create_calls := create_calls w;
     log := log w ++ [Py.mkLog lvl msg args] |}.

(** What [create_new_course_in_store] raises when the course exists. *)
Inductive DuplicateCourseError : Type := duplicate_course_error.

(** Modelled from the spec: [create_new_course_in_store]
    (contentstore.views.course) is not among the source files.  "Duplicate-creation
    conflicts (e.g., course already exists)": the call raises
    [DuplicateCourseError] when the modulestore already holds a course
    with this organisation, number and run, and otherwise stores the new
    course and returns it. *)
Definition record_call (course_key : CourseKey) (w : World) : World :=
  {| modulestore := modulestore w;
     create_calls := create_calls w ++ [course_key];
     log := log w |}.

Definition store_course (new_course : Course) (w : World) : World :=
  {| modulestore := <[id new_course := new_course]> (modulestore w);
     create_calls := create_calls w;
     log := log w |}.

Definition create_new_course_in_store
    (store_for_new_course : StoreType) (user : User) (org number run : string)
    (fields : Fields) (w : World) : World * (DuplicateCourseError + Course) :=
  let course_key := mkCourseKey org number run in
  let w := record_call course_key w in
  match modulestore w !! course_key with
  | Some _ => (w, inl duplicate_course_error)
  | None =>
      let new_course := {| id := course_key; store_type := store_for_new_course;
                           fields := fields; creator := user |} in
      (store_course new_course w, inr new_course)
  end.

Section Collaborators.

(** [user_from_str] (contentstore.management.commands.utils): [None] stands
    for [User.DoesNotExist]. *)
Variable user_from_str : string -> option User.

(** [CourseKey.from_string] of the opaque-keys library, applied to the
    result of [course_run.get('key')]: [None] stands for [InvalidKeyError]. *)
Variable from_string : option string -> option CourseKey.

(** [text_type(course.id)] *)
Variable text_type : CourseKey -> string.

(** [Command.get_user] *)
Definition get_user (user : string) : Py.result User :=
  match user_from_str user with
  | None => Raise (Py.CommandError ("No user " +:+ user +:+ " found."))
  | Some user_object => Ok user_object
  end.

(** The body of the [for course_run in course_runs] loop. *)
Definition sync_course_run (instructor : User) (course_run : CourseRun) (w : World)
  : World * Py.result unit :=
  match from_string (key course_run) with
  | None => (w, Raise Py.InvalidKeyError)
  | Some course_key =>
      let fields := {| display_name := title course_run |} in
      match create_new_course_in_store split instructor
              (org course_key) (course course_key) (run course_key) fields w with
      | (w, inr new_course) =>
          (logger Py.INFO "Created {}" [Py.Str (text_type (id new_course))] w, Ok tt)
      | (w, inl duplicate_course_error) =>
          (logger Py.WARNING "Course already exists for %s, %s, %s. Skipping"
             [Py.Str (org course_key); Py.Str (course course_key); Py.Str (run course_key)] w,
           Ok tt)
      end
  end.

Fixpoint sync_course_runs (instructor : User) (course_runs : list CourseRun) (w : World)
  : World * Py.result unit :=
  match course_runs with
  | [] => (w, Ok tt)
  | course_run :: rest =>
      match sync_course_run instructor course_run w with
      | (w, Ok _) => sync_course_runs instructor rest w
      | (w, Raise e) => (w, Raise e)
      end
  end.

(** [Command.handle]; [get_course_runs] is the answer of the catalog
    service to [get_course_runs()]. *)
Definition handle (instructor : string) (get_course_runs : list CourseRun) (w : World)
  : World * Py.result unit :=
  match get_user instructor with
  | Raise e => (w, Raise e)
  | Ok instructor => sync_course_runs instructor get_course_runs w
  end.

(** The keys of the catalog entries, in list order. *)
Definition keys_of (course_runs : list CourseRun) : list CourseKey :=
  omap (fun course_run => from_string (key course_run)) course_runs.

Definition has_key (k : CourseKey) (course_run : CourseRun) : Prop :=
  from_string (key course_run) = Some k.

#[export] Instance has_key_dec k course_run : Decision (has_key k course_run).
Proof. unfold has_key. apply _. Defined.

End Collaborators.

(** The course that a run of the command creates for a catalog entry. *)
Definition course_for (instructor : User) (course_key : CourseKey) (course_run : CourseRun)
  : Course :=
  {| id := course_key; store_type := split;
     fields := {| display_name := title course_run |}; creator := instructor |}.

(** *** Collaborators for worked examples *)

Definition staff : User :=
  {| user_id := 1; username := "staff"; email := "staff@example.com" |}.

Definition example_user_from_str (s : string) : option User :=
  if decide (s = email staff) then Some staff else None.

Definition demo_key : CourseKey := mkCourseKey "edX" "DemoX" "2019_T1".
Definition other_key : CourseKey := mkCourseKey "edX" "Other" "2019_T2".

Definition example_from_string (s : option string) : option CourseKey :=
  if decide (s = Some "course-v1:edX+DemoX+2019_T1") then Some demo_key
  else if decide (s = Some "course-v1:edX+Other+2019_T2") then Some other_key
  else None.

Definition example_text_type (k : CourseKey) : string :=
  "course-v1:" +:+ org k +:+ "+" +:+ course k +:+ "+" +:+ run k.

Definition demo_run : CourseRun :=
  {| key := Some "course-v1:edX+DemoX+2019_T1"; title := Some "Demonstration" |}.
Definition other_run : CourseRun :=
  {| key := Some "course-v1:edX+Other+2019_T2"; title := Some "Another course" |}.

Definition empty_world : World :=
  {| modulestore := ∅; create_calls := []; log := [] |}.

(** A modulestore that already holds the demonstration course. *)
Definition world_with_demo : World :=
  {| modulestore := {[ demo_key := course_for staff demo_key demo_run ]};
     create_calls := [];
     log := [] |}.

End SyncCourses.

(** ** [send_verification_expiry_email] *)

Module SendVerificationExpiryEmail.

(** *** Dates

    A [datetime] is a number of microseconds since the epoch (UTC); a
    [timedelta] is a number of microseconds. *)

Definition day : Z := 86400000000.

(** [timedelta(days=n)] *)
Definition timedelta (days : Z) : Z := days * day.

(** [t.replace(hour=0, minute=0, second=0, microsecond=0)] *)
Definition midnight (t : Z) : Z := t - t `mod` day.

(** [t.date()], as a day number *)
Definition date (t : Z) : Z := t / day.

(** [delta.days] *)
Definition days (delta : Z) : Z := delta / day.

(** [settings.VERIFICATION_EXPIRY_EMAIL]; the settings module is not
    among the source files, the tests read the three values from it. *)
Record Settings : Type := {
  RESEND_DAYS : Z;
  DAYS_RANGE : Z;
  DEFAULT_EMAILS : Z
}.

(** A row of [SoftwareSecurePhotoVerification], with the fields the
    tests set and read: [expiry_date] is the spec's eligibility
    timestamp, [expiry_email_date] its nullable last-action timestamp. *)
Record Verification : Type := {
  user : Z;
  status : string;
  expiry_date : Z;
  expiry_email_date : option Z
}.

(** A row of [CourseEnrollment], as [CourseEnrollmentFactory] makes it. *)
Record CourseEnrollment : Type := {
  enrollment_user : Z;
  course_id : string;
  mode : string
}.

(** A message of [mail.outbox]: the user written to and the primary key
    of the verification the message is about. *)
Record EmailMessage : Type := {
  to : Z;
  about : Z
}.

(** The verification table by primary key, the enrollments, the mail
    outbox and the log. *)
Record World : Type := {
  verifications : gmap Z Verification;
  enrollments : list CourseEnrollment;
  outbox : list EmailMessage;
  log : list Py.LogRecord
}.

Definition logger_info (msg : string) (args : list Py.arg) (w : World) : World :=
  {| verifications := verifications w;
     enrollments := enrollments w;
     outbox := outbox w;
     log := log w ++ [Py.mkLog Py.INFO msg args] |}.

Definition send_mail (m : EmailMessage) (w : World) : World :=
  {| verifications := verifications w;
     enrollments := enrollments w;
     outbox := outbox w ++ [m];
     log := log w |}.

Definition set_expiry_email_date (email_date : option Z) (v : Verification) : Verification :=
  {| user := user v;
     status := status v;
     expiry_date := expiry_date v;
     expiry_email_date := email_date |}.

(** [SoftwareSecurePhotoVerification.objects.filter(pk=pk).update(expiry_email_date=email_date)] *)
Definition update (pk : Z) (email_date : option Z) (w : World) : World :=
  {| verifications := alter (set_expiry_email_date email_date) pk (verifications w);
     enrollments := enrollments w;
     outbox := outbox w;
     log := log w |}.

(** The message sent about an entry (primary key, row) of the table. *)
Definition message_for (entry : Z * Verification) : EmailMessage :=
  {| to := user entry.2; about := entry.1 |}.

(** An enrollment of user [u] in the verified track. *)
Definition is_verified_enrollment (u : Z) (e : CourseEnrollment) : bool :=
  bool_decide (enrollment_user e = u) && bool_decide (mode e = "verified").

Section Command.

Variable settings : Settings.

(** The value of [--dry-run]. *)
Variable dry_run : bool.

(** The value of [now()] during the run. *)
Variable now : Z.

(** Modelled from the spec: the dates of the run, which the command (not
    among the source files) derives from [now()] and the settings: today
    at midnight, as the tests' [today], the start of the date range
    ("now − threshold"), and the latest date of a message whose cooldown
    has elapsed ("now − last_action_timestamp ≥ resend_cooldown"). *)
Definition end_date : Z := midnight now.
Definition date_resend_days_ago : Z := end_date - timedelta (RESEND_DAYS settings).
Definition start_date : Z := end_date - timedelta (DAYS_RANGE settings).

(** Modelled from the spec: the selector of 4.1.  The command is not
    among the source files; its tests are.  A verification is selected
    when it is approved and either expired within the date range
    [start_date, end_date) that the command logs, or was written to at
    least [RESEND_DAYS] ago.  The spec writes the time condition as
    "eligibility_timestamp ≤ now − threshold"; the tests decide
    otherwise: in [test_expiry_date_range] the verification expired
    [DAYS_RANGE] days ago gets a message and the one expired a day
    earlier gets none, and in [test_expiry_email_date_range] the resend
    criterion selects a verification that expired before the range. *)
Definition selected (v : Verification) : bool :=
  bool_decide (status v = "approved")
  && ((bool_decide (start_date ≤ expiry_date v) && bool_decide (expiry_date v < end_date))
      || match expiry_email_date v with
         | Some sent => bool_decide (sent ≤ date_resend_days_ago)
         | None => false
         end).

(** Modelled from the spec: "last_action_timestamp is null OR now −
    last_action_timestamp ≥ resend_cooldown" ([test_email_already_sent]). *)
Definition due (v : Verification) : bool :=
  match expiry_email_date v with
  | None => true
  | Some sent => bool_decide (sent ≤ date_resend_days_ago)
  end.

(** Modelled from the spec: the watermark writer of 4.4.  The resend
    bound is reached when [RESEND_DAYS * (DEFAULT_EMAILS - 1)] days have
    passed since the expiry ([test_not_enrolled_in_verified_course],
    [test_number_of_emails_sent]); a user enrolled in the verified track
    is written to again all the same
    ([test_user_enrolled_in_verified_course]). *)
Definition resend_bound_reached (v : Verification) : bool :=
  bool_decide (RESEND_DAYS settings * (DEFAULT_EMAILS settings - 1)
               ≤ days (now - expiry_date v)).

(** Modelled from the spec: the other half of the watermark writer; the
    command is not among the source files.  After the bound the user is
    written to again only with an enrollment in the verified track. *)
Definition send_expiry_email_again (w : World) (v : Verification) : bool :=
  if resend_bound_reached v
  then existsb (is_verified_enrollment (user v)) (enrollments w)
  else true.

(** Modelled from the spec: "sets last_action_timestamp = now; if resend
    count bound reached, sets last_action_timestamp = null".  The tests
    compare the date written with [today], the run's [now] at midnight. *)
Definition new_expiry_email_date (w : World) (v : Verification) : option Z :=
  if send_expiry_email_again w v then Some (midnight now) else None.

(** Modelled from the spec: the dispatcher's action on one verification,
    the message and then the watermark. *)
Definition send_one (w : World) (entry : Z * Verification) : World :=
  let pk := entry.1 in
  let verification := entry.2 in
  let w := send_mail (message_for entry) w in
  update pk (new_expiry_email_date w verification) w.

(** Modelled from the spec: the rows the selector returns, and those of
    them a message is due to. *)
Definition query (w : World) : list (Z * Verification) :=
  filter (fun entry => selected entry.2 = true) (map_to_list (verifications w)).

Definition to_send (w : World) : list (Z * Verification) :=
  filter (fun entry => due entry.2 = true) (query w).

(** Modelled from the spec: the command [send_verification_expiry_email]
    (lms/djangoapps/verify_student/management/commands), which is not
    among the source files: selector, dispatcher with its dry-run mode,
    watermark writer.  The log records are those that
    [test_no_verification_found] and [test_dry_run_flag] check.  The
    grouping of the messages into batches, which no test observes, is
    left out: one dispatch takes all the due verifications. *)
Definition handle (w : World) : Py.result World :=
  let total_verification := Z.of_nat (length (query w)) in
  if decide (total_verification = 0) then
    Ok (logger_info
          "No approved expired entries found in SoftwareSecurePhotoVerification for the date range {} - {}"
          [Py.Int (date start_date); Py.Int (date now)] w)
  else
    let w := logger_info
               "For the date range {} - {}, total Software Secure Photo verification filtered are {}"
               [Py.Int (date start_date); Py.Int (date now); Py.Int total_verification] w in
    let batch_verifications := to_send w in
    match batch_verifications with
    | [] => Ok w
    | _ :: _ =>
        if dry_run then
          Ok (logger_info
                "This was a dry run, no email was sent. For the actual run email would have been sent to {} learner(s)"
                [Py.Int (Z.of_nat (length batch_verifications))] w)
        else Ok (foldl send_one w batch_verifications)
    end.

(** The log records of the command. *)
Definition nothing_found_record : Py.LogRecord :=
  Py.mkLog Py.INFO
    "No approved expired entries found in SoftwareSecurePhotoVerification for the date range {} - {}"
    [Py.Int (date start_date); Py.Int (date now)].

Definition total_record (total : Z) : Py.LogRecord :=
  Py.mkLog Py.INFO
    "For the date range {} - {}, total Software Secure Photo verification filtered are {}"
    [Py.Int (date start_date); Py.Int (date now); Py.Int total].

Definition dry_run_record (count : Z) : Py.LogRecord :=
  Py.mkLog Py.INFO
    "This was a dry run, no email was sent. For the actual run email would have been sent to {} learner(s)"
    [Py.Int count].

(** What a dry run reports: the number of selected verifications, and
    the number of messages an actual run would send when there are any. *)
Definition dry_run_report (w : World) : list Py.LogRecord :=
  match query w with
  | [] => [nothing_found_record]
  | _ :: _ =>
      total_record (Z.of_nat (length (query w))) ::
      match to_send w with
      | [] => []
      | _ :: _ => [dry_run_record (Z.of_nat (length (to_send w)))]
      end
  end.

End Command.

(** The messages of an outbox that are about verification [pk]. *)
Definition emails_about (pk : Z) (box : list EmailMessage) : list EmailMessage :=
  filter (fun m => about m = pk) box.

(** Successive actual runs of the command, at the given times. *)
Fixpoint handle_each (settings : Settings) (times : list Z) (w : World) : Py.result World :=
  match times with
  | [] => Ok w
  | now :: later => w ← handle settings false now w; handle_each settings later w
  end.

(** *** The test-suite

    [TestSendVerificationExpiryEmail], test by test: the rows each test
    saves, the call of the command, and what the test asserts of the
    outcome.  The tests are stated of any command; the test's [now()] and
    the command's are taken at the same instant.
    ([test_most_recent_verification] does not call the command.) *)

Section Tests.

(** The command under test, called with the settings, the value of
    [--dry-run] and the time of the call. *)
Variable command : Settings -> bool -> Z -> World -> Py.result World.
Variable settings : Settings.
Variable now : Z.

Definition resend_days : Z := RESEND_DAYS settings.
Definition days_range : Z := DAYS_RANGE settings.
Definition default_no_of_emails : Z := DEFAULT_EMAILS settings.

(** The database after [setUp]. *)
Definition setUp : World :=
  {| verifications := ∅; enrollments := []; outbox := []; log := [] |}.

(** [verification.save()] of the row with primary key [pk]. *)
Definition save (pk : Z) (v : Verification) (w : World) : World :=
  {| verifications := <[pk := v]> (verifications w);
     enrollments := enrollments w;
     outbox := outbox w;
     log := log w |}.

(** [CourseEnrollmentFactory.create(user=user, course_id=course.id, mode=mode)] *)
Definition enroll (u : Z) (course : string) (mode : string) (w : World) : World :=
  {| verifications := verifications w;
     enrollments := enrollments w ++ [{| enrollment_user := u; course_id := course; mode := mode |}];
     outbox := outbox w;
     log := log w |}.

(** [SoftwareSecurePhotoVerification.objects.get(pk=pk).expiry_email_date] *)
Definition get_expiry_email_date (pk : Z) (w : World) : option (option Z) :=
  expiry_email_date <$> verifications w !! pk.

Definition call_command (dry_run : bool) (w : World) : Py.result World :=
  command settings dry_run now w.

(** What a test asserts of the world the command leaves. *)
Definition passes (r : Py.result World) (assertion : World -> Prop) : Prop :=
  match r with
  | Ok w => assertion w
  | Raise _ => False
  end.

Definition approved (u expiry : Z) (sent : option Z) : Verification :=
  {| user := u; status := "approved"; expiry_date := expiry; expiry_email_date := sent |}.

Definition test_expiry_date_range : Prop :=
  let verification_in_range := approved 1 (now - timedelta days_range) None in
  let verification := approved 2 (now - timedelta (days_range + 1)) None in
  let w := save 2 verification (save 1 verification_in_range setUp) in
  passes (call_command false w) (fun w =>
    length (outbox w) = 1%nat ∧ get_expiry_email_date 2 w = Some None).

Definition test_expiry_email_date_range : Prop :=
  let today := midnight now in
  let verification_in_range :=
    approved 1 (today - timedelta (days_range + 1)) (Some (today - timedelta resend_days)) in
  let w := save 1 verification_in_range setUp in
  passes (call_command false w) (fun w => length (outbox w) = 1%nat).

Definition test_send_verification_expiry_email : Prop :=
  let verification := approved 1 (now - timedelta days_range) None in
  let w := save 1 verification setUp in
  passes (call_command false w) (fun w =>
    match get_expiry_email_date 1 w with
    | Some (Some sent) => date sent = date now
    | _ => False
    end
    ∧ length (outbox w) = 1%nat).

Definition test_email_already_sent : Prop :=
  let verification := approved 1 (now - timedelta days_range) (Some now) in
  let w := save 1 verification setUp in
  passes (call_command false w) (fun w => length (outbox w) = 0%nat).

Definition test_no_verification_found : Prop :=
  let start_date := now - timedelta days_range in
  passes (call_command false setUp) (fun w =>
    log w = [Py.mkLog Py.INFO
               "No approved expired entries found in SoftwareSecurePhotoVerification for the date range {} - {}"
               [Py.Int (date start_date); Py.Int (date now)]]).

Definition test_dry_run_flag : Prop :=
  let verification := approved 1 (now - timedelta days_range) None in
  let w := save 1 verification setUp in
  let start_date := now - timedelta days_range in
  let count := 1 in
  passes (call_command true w) (fun w =>
    log w = [Py.mkLog Py.INFO
               "For the date range {} - {}, total Software Secure Photo verification filtered are {}"
               [Py.Int (date start_date); Py.Int (date now); Py.Int count];
             Py.mkLog Py.INFO
               "This was a dry run, no email was sent. For the actual run email would have been sent to {} learner(s)"
               [Py.Int count]]
    ∧ length (outbox w) = 0%nat).

(** The verification of the two enrollment tests: expired
    [resend_days * (default_no_of_emails - 1)] days ago, last written to
    [resend_days] days before today. *)
Definition verification_at_resend_bound : Verification :=
  let today := midnight now in
  approved 1 (now - timedelta (resend_days * (default_no_of_emails - 1)))
           (Some (today - timedelta resend_days)).

Definition test_not_enrolled_in_verified_course : Prop :=
  let verification := verification_at_resend_bound in
  let w := save 1 verification setUp in
  passes (call_command false w) (fun w =>
    length (outbox w) = 1%nat ∧ get_expiry_email_date 1 w = Some None).

(** The database of [test_user_enrolled_in_verified_course] before the call. *)
Definition enrolled_in_verified_course : World :=
  save 1 verification_at_resend_bound (enroll 1 "course" "verified" setUp).

Definition test_user_enrolled_in_verified_course : Prop :=
  let today := midnight now in
  passes (call_command false enrolled_in_verified_course) (fun w =>
    get_expiry_email_date 1 w = Some (Some today)).

(** The loop of [test_number_of_emails_sent], over the values of [i]. *)
Fixpoint resend_loop (values : list Z) (w : World) : Py.result World :=
  match values with
  | [] => Ok w
  | i :: rest =>
      match get_expiry_email_date 1 w with
      | Some (Some _) =>
          let today := midnight now in
          let verification :=
            approved 1 (today - timedelta (resend_days * i + 1))
                     (Some (today - timedelta resend_days)) in
          w ← call_command false (save 1 verification w);
          resend_loop rest w
      | _ => Ok w
      end
  end.

Definition test_number_of_emails_sent : Prop :=
  let verification := approved 1 (now - timedelta 1) None in
  let w := save 1 verification setUp in
  passes (w ← call_command false w;
          resend_loop (seqZ 1 (default_no_of_emails + 1)) w)
    (fun w =>
       get_expiry_email_date 1 w = Some None
       ∧ Z.of_nat (length (outbox w)) = default_no_of_emails).

End Tests.

(** The values of [VERIFICATION_EXPIRY_EMAIL] in the platform's settings. *)
Definition default_settings : Settings :=
  {| RESEND_DAYS := 15; DAYS_RANGE := 1; DEFAULT_EMAILS := 2 |}.

(** 2019-10-10 13:45:00 UTC, and the same day at 00:00:00. *)
Definition a_thursday_afternoon : Z := 1570715100000000.
Definition a_thursday_at_midnight : Z := 1570665600000000.

End SendVerificationExpiryEmail.

(** ** [conftest.py] *)

Module Conftest.

(** [s[n:]] *)
Fixpoint skip (n : nat) (s : string) : string :=
  match n, s with
  | O, _ => s
  | S _, EmptyString => EmptyString
  | S n, String _ rest => skip n rest
  end.

(** [s.find(sub)]: the index of the leftmost occurrence of [sub] in [s];
    [None] stands for -1. *)
Fixpoint find (sub s : string) : option nat :=
  if String.prefix sub s then Some O
  else match s with
       | EmptyString => None
       | String _ rest => S <$> find sub rest
       end.

(** [s.replace(old, new, 1)]: the leftmost occurrence of [old] replaced. *)
Fixpoint replace_first (old new s : string) : string :=
  if String.prefix old s then new +:+ skip (String.length old) s
  else match s with
       | EmptyString => EmptyString
       | String c rest => String c (replace_first old new rest)
       end.

(** The pytest [config] object: [workerinput] is the dictionary that
    pytest-xdist sets on its workers, [None] when [hasattr] is false. *)
Record Config : Type := { workerinput : option (gmap string string) }.

(** How the hook ends: it returns, leaving a process title, or
    [config.workerinput['workerid']] raises [KeyError]. *)
Inductive outcome : Type :=
| Returns (proctitle : string)
| KeyError (k : string).

(** [pytest_configure], on the process title that [getproctitle()]
    gives; the title it returns is the one [setproctitle] has set, or the
    old one when [setproctitle] is not called. *)
Definition pytest_configure (config : Config) (proctitle : string) : outcome :=
  match workerinput config with
  | Some workerinput =>
      let old_name := proctitle in
      match workerinput !! "workerid" with
      | None => KeyError "workerid"
      | Some workerid =>
          let new_name := "py_xdist_" +:+ workerid in
          Returns (replace_first "python" new_name old_name)
      end
  | None => Returns proctitle
  end.

(** The configuration of the xdist worker [workerid]. *)
Definition worker (workerid : string) : Config :=
  {| workerinput := Some {[ "workerid" := workerid ]} |}.

End Conftest.

(** * Facts *)

(** ** Python helpers *)

Section PyFacts.

Lemma floordiv_ok (a b : Z) : b ≠ 0 → Py.floordiv a b = Ok (a / b).
Proof. intros Hb. unfold Py.floordiv. by rewrite decide_False. Qed.

Lemma floordiv_by_zero (a : Z) : Py.floordiv a 0 = Raise Py.ZeroDivisionError.
Proof. reflexivity. Qed.

Lemma range_S (n : nat) : Py.range (Z.of_nat (S n)) = Py.range (Z.of_nat n) ++ [Z.of_nat n].
Proof. unfold Py.range. by rewrite seqZ_S. Qed.

End PyFacts.

(** ** [expire_old_entitlements] *)

Section ExpireOldEntitlementsFacts.

Import ExpireOldEntitlements.

(** The ceiling of a quotient, in integer arithmetic. *)
Lemma ceil_div_opp (n b : Z) : ceil_div n b = - ((- n) / b).
Proof.
  unfold ceil_div, Qceiling. f_equal.
  rewrite Zdiv_Qdiv. apply Qfloor_comp.
  rewrite inject_Z_opp. unfold Qdiv. ring.
Qed.

Lemma ceil_div_pos (n b : Z) : 0 < b → ceil_div n b = (n - 1) / b + 1.
Proof.
  intros Hb. rewrite ceil_div_opp.
  assert (Hq : (n - 1) / b + 1 = (n - 1 + 1 * b) / b) by (rewrite Z.div_add; lia).
  rewrite Hq. apply Z.div_unique with (r := b - 1 - (- n) `mod` b).
  - left. pose proof (Z.mod_pos_bound (- n) b Hb). lia.
  - pose proof (Z.div_mod (- n) b). lia.
Qed.

Lemma ceil_div_zero (b : Z) : ceil_div 0 b = 0.
Proof. rewrite ceil_div_opp. simpl. by rewrite Zdiv_0_l. Qed.

Lemma batch_size_clamp (options : Options) :
  batch_size options = Z.max 1 (opt_batch_size options) ∧ 1 ≤ batch_size options.
Proof. unfold batch_size. lia. Qed.

Lemma num_batches_pos (total size : Z) :
  0 < total → size ≠ 0 → num_batches total size = Ok ((total - 1) / size + 1).
Proof.
  intros Ht Hs. unfold num_batches. rewrite decide_True by done.
  by rewrite floordiv_ok.
Qed.

Lemma num_batches_nonpos (total size : Z) : total ≤ 0 → num_batches total size = Ok 0.
Proof. intros Ht. unfold num_batches. rewrite decide_False; [done | lia]. Qed.

Lemma num_batches_ceil (total size : Z) :
  0 ≤ total → 1 ≤ size → num_batches total size = Ok (ceil_div total size).
Proof.
  intros Ht Hs. destruct (decide (0 < total)) as [Hpos | Hz].
  - rewrite num_batches_pos by lia. by rewrite ceil_div_pos by lia.
  - assert (total = 0) as -> by lia. by rewrite num_batches_nonpos, ceil_div_zero.
Qed.

Lemma ceil_div_sandwich (n b : Z) :
  1 ≤ b → (ceil_div n b - 1) * b < n ≤ ceil_div n b * b.
Proof.
  intros Hb. rewrite ceil_div_pos by lia.
  pose proof (Z.div_mod (n - 1) b). pose proof (Z.mod_pos_bound (n - 1) b). lia.
Qed.

Lemma ceil_div_nonneg (n b : Z) : 0 ≤ n → 1 ≤ b → 0 ≤ ceil_div n b.
Proof. intros Hn Hb. pose proof (ceil_div_sandwich n b Hb). nia. Qed.

Lemma ceil_div_exact (n b : Z) : 1 ≤ b → n `mod` b = 0 → ceil_div n b = n / b.
Proof.
  intros Hb Hm. pose proof (ceil_div_sandwich n b Hb).
  pose proof (Z.div_mod n b). nia.
Qed.

(** The loop of a commit run appends one task per batch number. *)
Lemma foldl_enqueue_batch (total size : Z) (nums : list Z) (w : World) :
  foldl (enqueue_batch total size) w nums
  = {| entitlements := entitlements w;
       task_queue := task_queue w ++ (batch_task total size <$> nums);
       log := log w |}.
Proof.
  revert w. induction nums as [| i nums IH]; intros w; simpl.
  - rewrite app_nil_r. by destruct w.
  - rewrite IH. simpl. by rewrite <- app_assoc.
Qed.

Lemma batches_eq (total size : Z) :
  0 ≤ total → 1 ≤ size →
  batches total size = batch_task total size <$> Py.range (ceil_div total size).
Proof. intros Ht Hs. unfold batches. by rewrite num_batches_ceil. Qed.

(** What [handle] returns, in closed form. *)
Lemma handle_commit (options : Options) (w : World) :
  opt_commit options = true →
  let n := ceil_div (count w) (batch_size options) in
  handle options w
  = Ok {| entitlements := entitlements w;
          task_queue := task_queue w ++ batches (count w) (batch_size options);
          log := log w ++
            [Py.mkLog Py.INFO "Looking for entitlements which may be expirable." [];
             Py.mkLog Py.INFO "Enqueuing %d entitlement expiration tasks." [Py.Int n];
             Py.mkLog Py.INFO "Done. Successfully enqueued %d tasks." [Py.Int n]] |}.
Proof.
  intros Hc n. unfold handle.
  assert (Ht : 0 ≤ count w) by (unfold count; lia).
  destruct (batch_size_clamp options) as [_ Hs].
  change (count (logger_info _ _ w)) with (count w).
  rewrite batches_eq by done.
  rewrite num_batches_ceil by done. simpl. rewrite Hc.
  rewrite foldl_enqueue_batch. unfold logger_info. simpl.
  by rewrite <- !app_assoc.
Qed.

Lemma handle_preview (options : Options) (w : World) :
  opt_commit options = false →
  let n := ceil_div (count w) (batch_size options) in
  handle options w
  = Ok {| entitlements := entitlements w;
          task_queue := task_queue w;
          log := log w ++
            [Py.mkLog Py.INFO "Looking for entitlements which may be expirable." [];
             Py.mkLog Py.INFO
               "Found %d batches. To enqueue entitlement expiration tasks, pass the -c or --commit flags."
               [Py.Int n]] |}.
Proof.
  intros Hc n. unfold handle.
  assert (Ht : 0 ≤ count w) by (unfold count; lia).
  destruct (batch_size_clamp options) as [_ Hs].
  change (count (logger_info _ _ w)) with (count w).
  rewrite num_batches_ceil by done. simpl. rewrite Hc.
  unfold logger_info. simpl. by rewrite <- !app_assoc.
Qed.

Lemma length_batches (total size : Z) :
  0 ≤ total → 1 ≤ size →
  Z.of_nat (length (batches total size)) = ceil_div total size.
Proof.
  intros Ht Hs. rewrite batches_eq by done.
  rewrite length_fmap. unfold Py.range. rewrite length_seqZ.
  pose proof (ceil_div_nonneg total size Ht Hs). lia.
Qed.

(** The shape of the task with a given batch number. *)
Lemma batch_task_bounds (total size i : Z) :
  0 ≤ total → 1 ≤ size → 0 ≤ i < ceil_div total size →
  let t := batch_task total size i in
  start t = i * size + 1
  ∧ 1 ≤ start t < end_ t
  ∧ end_ t ≤ total + 1
  ∧ end_ t - start t ≤ size
  ∧ (i + 1 < ceil_div total size → end_ t = (i + 1) * size + 1)
  ∧ (i + 1 = ceil_div total size → end_ t = total + 1).
Proof.
  intros Ht Hs Hi t. subst t. unfold batch_task. simpl.
  pose proof (ceil_div_sandwich total size Hs) as [Hlo Hhi].
  assert (i * size < total) by nia.
  repeat split; try lia; try nia.
Qed.

Lemma ids_of_batch_task (total size i : Z) :
  0 ≤ total → 1 ≤ size → 0 ≤ i < ceil_div total size →
  ids_of (batch_task total size i)
  = seqZ (i * size + 1) (Z.min ((i + 1) * size) total - i * size).
Proof.
  intros Ht Hs Hi. unfold ids_of, batch_task. simpl. f_equal. lia.
Qed.

(** The first [k] tasks cover the identifiers from 1 on, in order and
    without gap or repetition. *)
Lemma concat_ids_prefix (total size : Z) (k : nat) :
  0 ≤ total → 1 ≤ size → Z.of_nat k ≤ ceil_div total size →
  concat (ids_of <$> (batch_task total size <$> Py.range (Z.of_nat k)))
  = seqZ 1 (Z.min (Z.of_nat k * size) total).
Proof.
  intros Ht Hs. induction k as [| k IH]; intros Hk.
  - simpl. rewrite seqZ_nil; [done | lia].
  - rewrite range_S, !fmap_app, concat_app, IH by lia. simpl.
    rewrite app_nil_r, ids_of_batch_task by lia.
    pose proof (ceil_div_sandwich total size Hs) as [Hlo Hhi].
    assert (Z.of_nat k * size < total) by nia.
    rewrite Z.min_l by lia.
    replace (Z.of_nat k * size + 1) with (1 + Z.of_nat k * size) by lia.
    rewrite <- seqZ_app by lia. f_equal. lia.
Qed.

Lemma concat_ids_batches (total size : Z) :
  0 ≤ total → 1 ≤ size →
  concat (ids_of <$> batches total size) = seqZ 1 total.
Proof.
  intros Ht Hs. rewrite batches_eq by done.
  pose proof (ceil_div_nonneg total size Ht Hs) as Hn.
  pose proof (ceil_div_sandwich total size Hs) as [Hlo Hhi].
  rewrite <- (Z2Nat.id (ceil_div total size)) at 1 by done.
  rewrite concat_ids_prefix by lia.
  f_equal. lia.
Qed.

Lemma batches_lookup (total size : Z) (i : nat) (t : Task) :
  0 ≤ total → 1 ≤ size →
  batches total size !! i = Some t ↔
  t = batch_task total size (Z.of_nat i) ∧ Z.of_nat i < ceil_div total size.
Proof.
  intros Ht Hs. rewrite batches_eq by done.
  rewrite list_lookup_fmap. unfold Py.range. split.
  - intros H. apply fmap_Some in H as (j & Hj & ->).
    apply lookup_seqZ in Hj as [-> Hlt]. by rewrite Z.add_0_l.
  - intros [-> Hlt]. by rewrite lookup_seqZ_lt.
Qed.

Lemma batches_elem (total size : Z) (t : Task) :
  0 ≤ total → 1 ≤ size → t ∈ batches total size →
  1 ≤ start t < end_ t ∧ end_ t ≤ total + 1 ∧ end_ t - start t ≤ size.
Proof.
  intros Ht Hs Hin. apply list_elem_of_lookup in Hin as [i Hi].
  apply batches_lookup in Hi as [-> Hlt]; [| done | done].
  pose proof (batch_task_bounds total size (Z.of_nat i) Ht Hs) as H.
  cbv zeta in H. destruct H as (_ & ? & ? & ? & _); [lia | done].
Qed.

Lemma batches_adjacent (total size : Z) (i : nat) (t t' : Task) :
  0 ≤ total → 1 ≤ size →
  batches total size !! i = Some t → batches total size !! S i = Some t' →
  end_ t = start t'.
Proof.
  intros Ht Hs Hi Hi'.
  apply batches_lookup in Hi as [-> Hlt]; [| done | done].
  apply batches_lookup in Hi' as [-> Hlt']; [| done | done].
  pose proof (batch_task_bounds total size (Z.of_nat i) Ht Hs) as H.
  pose proof (batch_task_bounds total size (Z.of_nat (S i)) Ht Hs) as H'.
  cbv zeta in H, H'.
  destruct H as (_ & _ & _ & _ & He & _); [lia |].
  destruct H' as (Hs' & _); [lia |].
  rewrite He, Hs' by lia. lia.
Qed.

Lemma batches_first (total size : Z) :
  0 < total → 1 ≤ size → start <$> head (batches total size) = Some 1.
Proof.
  intros Ht Hs.
  assert (H0 : batches total size !! 0%nat = Some (batch_task total size 0)).
  { apply batches_lookup; [lia | done |]. split; [done |].
    pose proof (ceil_div_sandwich total size Hs). simpl. nia. }
  rewrite <- head_lookup in H0. by rewrite H0.
Qed.

Lemma batches_last (total size : Z) :
  0 < total → 1 ≤ size → end_ <$> last (batches total size) = Some (total + 1).
Proof.
  intros Ht Hs.
  pose proof (ceil_div_sandwich total size Hs) as [Hlo Hhi].
  assert (Hn : 1 ≤ ceil_div total size) by nia.
  pose proof (length_batches total size ltac:(lia) Hs) as Hlen.
  rewrite last_lookup.
  assert (Hl : batches total size !! pred (length (batches total size))
               = Some (batch_task total size (ceil_div total size - 1))).
  { apply batches_lookup; [lia | done |]. split; [f_equal |]; lia. }
  rewrite Hl. simpl. f_equal. lia.
Qed.

Lemma count_world_with (n : Z) : 0 ≤ n → count (world_with n) = n.
Proof.
  intros Hn. unfold count, world_with. simpl.
  rewrite length_fmap, length_seqZ. lia.
Qed.

Lemma handle_enqueues (options : Options) (w : World) :
  ∃ w', handle options w = Ok w'
    ∧ entitlements w' = entitlements w
    ∧ task_queue w'
      = task_queue w ++
        (if opt_commit options then batches (count w) (batch_size options) else []).
Proof.
  destruct (opt_commit options) eqn:Hc.
  - eexists. split; [by apply handle_commit |]. done.
  - eexists. split; [by apply handle_preview |]. simpl. by rewrite app_nil_r.
Qed.

(** C1, as amended.  For every number N of entitlements and every
    supplied [--batch-size], the command computes ceil(N/B) batches
    where B is the supplied size clamped to at least 1: that is
    (N - 1) div B + 1 when N > 0, N div B when B divides N, and zero
    when N = 0, in which case nothing is enqueued.  A commit run
    enqueues exactly that many tasks. *)
Theorem num_batches_is_ceiling_of_clamped_size (options : Options) (w : World) :
  let N := count w in
  let B := Z.max 1 (opt_batch_size options) in
  batch_size options = B
  ∧ num_batches N (batch_size options) = Ok (ceil_div N B)
  ∧ (0 < N → num_batches N (batch_size options) = Ok ((N - 1) / B + 1))
  ∧ (N `mod` B = 0 → num_batches N (batch_size options) = Ok (N / B))
  ∧ (N = 0 →
       num_batches N (batch_size options) = Ok 0
       ∧ ∃ w', handle options w = Ok w' ∧ task_queue w' = task_queue w)
  ∧ ∃ w' tasks,
       handle options w = Ok w'
       ∧ task_queue w' = task_queue w ++ tasks
       ∧ Z.of_nat (length tasks) = (if opt_commit options then ceil_div N B else 0).
Proof.
  intros N B.
  assert (HN : 0 ≤ N) by (unfold N, count; lia).
  assert (HB : 1 ≤ B) by (unfold B; lia).
  assert (Hbs : batch_size options = B) by done.
  rewrite Hbs.
  destruct (handle_enqueues options w) as (w' & Hw' & _ & Hq).
  rewrite Hbs in Hq. fold N in Hq.
  split; [done |]. split; [by apply num_batches_ceil |].
  split; [intros; apply num_batches_pos; lia |].
  split; [intros Hm; rewrite num_batches_ceil, ceil_div_exact by done; done |].
  split.
  - intros H0. rewrite H0. split; [by apply num_batches_nonpos |].
    exists w'. split; [done |]. rewrite Hq, H0.
    destruct (opt_commit options); [| by rewrite app_nil_r].
    rewrite batches_eq, ceil_div_zero by lia. simpl. by rewrite app_nil_r.
  - eexists w', _. split; [done |]. split; [exact Hq |].
    destruct (opt_commit options); [by apply length_batches | done].
Qed.

(** C1 does not hold with B the supplied [--batch-size]: with 5
    entitlements and [--batch-size -2] the command computes 5 batches (it
    divides by the clamped size 1), while ceil(5 / -2) is -2 and
    (5 - 1) div -2 + 1 is -1. *)
Lemma num_batches_not_ceiling_of_supplied_size :
  num_batches (count (world_with 5))
    (batch_size {| opt_commit := true; opt_batch_size := -2 |}) = Ok 5
  ∧ ceil_div (count (world_with 5)) (-2) = -2
  ∧ (count (world_with 5) - 1) / (-2) + 1 = -1
  ∧ num_batches (count (world_with 5))
      (batch_size {| opt_commit := true; opt_batch_size := -2 |})
    ≠ Ok (ceil_div (count (world_with 5)) (-2)).
Proof. vm_compute. repeat split; discriminate. Qed.

(** Without the clamp a batch size of zero would stop the command. *)
Example num_batches_unclamped_zero : num_batches 3 0 = Raise Py.ZeroDivisionError.
Proof. reflexivity. Qed.

(** C2 does not hold with B the supplied [--batch-size]: with 3
    entitlements and [--batch-size 0] a commit run enqueues the ranges
    [1,2), [2,3), [3,4), each of size 1, which is more than 0. *)
Lemma batches_exceed_supplied_size :
  ∃ w',
    handle {| opt_commit := true; opt_batch_size := 0 |} (world_with 3) = Ok w'
    ∧ task_queue w'
      = [ {| start := 1; end_ := 2; logid := "0" |};
          {| start := 2; end_ := 3; logid := "1" |};
          {| start := 3; end_ := 4; logid := "2" |} ]
    ∧ ¬ Forall (fun t => end_ t - start t ≤ 0) (task_queue w').
Proof.
  eexists. split; [vm_compute; reflexivity |]. split; [reflexivity |].
  intros H. apply Forall_cons_1 in H as [H _]. simpl in H. lia.
Qed.

(** C2, as amended.  A commit run over N > 0 entitlements, with B the
    supplied [--batch-size] clamped to at least 1 (the supplied size
    itself when that is at least 1), enqueues tasks whose ranges
    [start, end) taken in order list the identifiers 1..N, each once: the
    first range starts at 1, each range ends where the next one starts,
    the last one ends at N + 1, and each is non-empty and holds at most B
    identifiers.  With batch size 1 and 3 entitlements the run enqueues
    the three tasks [1,2), [2,3), [3,4). *)
Theorem commit_run_partitions_ids :
  (∀ (options : Options) (w : World),
     opt_commit options = true → entitlements w ≠ [] →
     let N := count w in
     let B := Z.max 1 (opt_batch_size options) in
     ∃ w' tasks,
       handle options w = Ok w'
       ∧ task_queue w' = task_queue w ++ tasks
       ∧ concat (ids_of <$> tasks) = seqZ 1 N
       ∧ NoDup (concat (ids_of <$> tasks))
       ∧ (∀ i, i ∈ concat (ids_of <$> tasks) ↔ 1 ≤ i ≤ N)
       ∧ (∀ t, t ∈ tasks →
            1 ≤ start t < end_ t ∧ end_ t ≤ N + 1 ∧ end_ t - start t ≤ B)
       ∧ (∀ i t t', tasks !! i = Some t → tasks !! S i = Some t' → end_ t = start t')
       ∧ start <$> head tasks = Some 1
       ∧ end_ <$> last tasks = Some (N + 1)
       ∧ (1 ≤ opt_batch_size options → B = opt_batch_size options))
  ∧ (∀ w : World,
       length (entitlements w) = 3%nat →
       ∃ w', handle {| opt_commit := true; opt_batch_size := 1 |} w = Ok w'
         ∧ task_queue w'
           = task_queue w ++
             [ {| start := 1; end_ := 2; logid := "0" |};
               {| start := 2; end_ := 3; logid := "1" |};
               {| start := 3; end_ := 4; logid := "2" |} ]).
Proof.
  split.
  - intros options w Hc Hne N B.
    assert (HN : 0 < N).
    { unfold N, count. destruct (entitlements w); [done | simpl; lia]. }
    destruct (batch_size_clamp options) as [Hmax HB].
    change (batch_size options) with B in HB.
    exists {| entitlements := entitlements w;
              task_queue := task_queue w ++ batches N B;
              log := log w ++
                [Py.mkLog Py.INFO "Looking for entitlements which may be expirable." [];
                 Py.mkLog Py.INFO "Enqueuing %d entitlement expiration tasks."
                   [Py.Int (ceil_div N B)];
                 Py.mkLog Py.INFO "Done. Successfully enqueued %d tasks."
                   [Py.Int (ceil_div N B)]] |}, (batches N B).
    split; [by apply handle_commit |].
    split; [done |].
    split; [apply concat_ids_batches; lia |].
    split; [rewrite concat_ids_batches by lia; apply NoDup_seqZ |].
    split; [intros i; rewrite concat_ids_batches, elem_of_seqZ by lia; lia |].
    split; [intros t Ht; apply batches_elem; [lia | done | done] |].
    split; [intros i t t'; apply batches_adjacent; [lia | done] |].
    split; [by apply batches_first |].
    split; [by apply batches_last |].
    intros Hs. unfold B. lia.
  - intros w Hlen. eexists. split; [by apply handle_commit |]. simpl.
    unfold count. rewrite Hlen. reflexivity.
Qed.

Lemma commit_run_partitions_ids_witness :
  let options := {| opt_commit := true; opt_batch_size := 4 |} in
  let w := world_with 10 in
  ∃ w' tasks,
    handle options w = Ok w'
    ∧ task_queue w' = task_queue w ++ tasks
    ∧ concat (ids_of <$> tasks) = seqZ 1 (count w)
    ∧ start <$> head tasks = Some 1
    ∧ end_ <$> last tasks = Some (count w + 1).
Proof.
  intros options w.
  destruct (proj1 commit_run_partitions_ids options w)
    as (w' & tasks & H1 & H2 & H3 & _ & _ & _ & _ & H4 & H5 & _).
  - reflexivity.
  - vm_compute. discriminate.
  - exists w', tasks. repeat split; assumption.
Defined.

(** C10.  The command clamps the supplied batch size to at least 1, so
    whatever integer is supplied the division that counts the batches
    does not raise [ZeroDivisionError], the command returns, and every
    range it enqueues is well-formed (1 <= start < end <= N + 1) and
    names at least one identifier. *)
Theorem batch_size_clamped_no_zero_division (options : Options) (w : World) :
  batch_size options = Z.max 1 (opt_batch_size options)
  ∧ 1 ≤ batch_size options
  ∧ Py.floordiv (count w - 1) (batch_size options)
    = Ok ((count w - 1) / batch_size options)
  ∧ Py.is_ok (num_batches (count w) (batch_size options))
  ∧ ∃ w' tasks,
      handle options w = Ok w'
      ∧ task_queue w' = task_queue w ++ tasks
      ∧ ∀ t, t ∈ tasks →
          1 ≤ start t < end_ t ∧ end_ t ≤ count w + 1 ∧ ids_of t ≠ [].
Proof.
  destruct (batch_size_clamp options) as [Hmax HB].
  assert (HN : 0 ≤ count w) by (unfold count; lia).
  split; [done |]. split; [done |].
  split; [apply floordiv_ok; lia |].
  split; [by rewrite num_batches_ceil |].
  destruct (handle_enqueues options w) as (w' & Hw' & _ & Hq).
  eexists w', _. split; [done |]. split; [exact Hq |].
  intros t Ht. destruct (opt_commit options); [| by apply elem_of_nil in Ht].
  destruct (batches_elem _ _ _ HN HB Ht) as (Hs & He & _).
  split; [done |]. split; [done |].
  unfold ids_of. rewrite seqZ_cons by lia. done.
Qed.

End ExpireOldEntitlementsFacts.

(** ** [sync_courses] *)

Section SyncCoursesFacts.

Import SyncCourses.

Variable user_from_str : string → option User.
Variable from_string : option string → option CourseKey.
Variable text_type : CourseKey → string.

Lemma mkCourseKey_eta (k : CourseKey) : mkCourseKey (org k) (course k) (run k) = k.
Proof. by destruct k. Qed.

(** A catalog entry whose course exists already: a warning, nothing else. *)
Lemma sync_course_run_duplicate (instructor : User) (course_run : CourseRun)
    (w : World) (k : CourseKey) (existing : Course) :
  from_string (key course_run) = Some k →
  modulestore w !! k = Some existing →
  sync_course_run from_string text_type instructor course_run w
  = (logger Py.WARNING "Course already exists for %s, %s, %s. Skipping"
       [Py.Str (org k); Py.Str (course k); Py.Str (run k)] (record_call k w),
     Ok tt).
Proof.
  intros Hk Hex. unfold sync_course_run, create_new_course_in_store.
  rewrite Hk, mkCourseKey_eta. simpl. by rewrite Hex.
Qed.

(** A catalog entry whose course does not exist yet: it is created. *)
Lemma sync_course_run_new (instructor : User) (course_run : CourseRun)
    (w : World) (k : CourseKey) :
  from_string (key course_run) = Some k →
  modulestore w !! k = None →
  sync_course_run from_string text_type instructor course_run w
  = (logger Py.INFO "Created {}" [Py.Str (text_type k)]
       (store_course (course_for instructor k course_run) (record_call k w)),
     Ok tt).
Proof.
  intros Hk Hex. unfold sync_course_run, create_new_course_in_store.
  rewrite Hk, mkCourseKey_eta. simpl. by rewrite Hex.
Qed.

(** The loop, when every entry has a well-formed key: it runs to the end,
    calls [create_new_course_in_store] once per entry, logs one record
    per entry, and leaves in the modulestore what was there plus, for
    each new key, the course of the first entry with that key. *)
Lemma sync_course_runs_spec (instructor : User) (course_runs : list CourseRun) (w : World) :
  Forall (fun course_run => is_Some (from_string (key course_run))) course_runs →
  ∃ w',
    sync_course_runs from_string text_type instructor course_runs w = (w', Ok tt)
    ∧ create_calls w' = create_calls w ++ keys_of from_string course_runs
    ∧ length (log w') = (length (log w) + length course_runs)%nat
    ∧ ∀ k, modulestore w' !! k
           = match modulestore w !! k with
             | Some c => Some c
             | None => (fun found => course_for instructor k found.2)
                         <$> list_find (has_key from_string k) course_runs
             end.
Proof.
  intros Hvalid. revert w.
  induction Hvalid as [| course_run rest [k Hk] _ IH]; intros w.
  - exists w. simpl. rewrite app_nil_r, Nat.add_0_r.
    repeat split. intros k. by destruct (modulestore w !! k).
  - simpl. destruct (modulestore w !! k) as [existing |] eqn:Hex.
    + rewrite (sync_course_run_duplicate _ _ _ _ _ Hk Hex).
      destruct (IH (logger Py.WARNING "Course already exists for %s, %s, %s. Skipping"
                      [Py.Str (org k); Py.Str (course k); Py.Str (run k)] (record_call k w)))
        as (w' & Hrun & Hcalls & Hlog & Hstore).
      exists w'. split; [done |].
      split; [rewrite Hcalls; unfold keys_of; simpl; rewrite Hk; simpl; by rewrite <- app_assoc |].
      split; [rewrite Hlog; simpl; rewrite length_app; simpl; lia |].
      intros k'. rewrite Hstore. simpl.
      destruct (modulestore w !! k') as [c |] eqn:Hk'; [done |].
      rewrite decide_False; [by rewrite <- option_fmap_compose |].
      unfold has_key. rewrite Hk. intros [= ->]. congruence.
    + rewrite (sync_course_run_new _ _ _ _ Hk Hex).
      destruct (IH (logger Py.INFO "Created {}" [Py.Str (text_type k)]
                      (store_course (course_for instructor k course_run) (record_call k w))))
        as (w' & Hrun & Hcalls & Hlog & Hstore).
      exists w'. split; [done |].
      split; [rewrite Hcalls; unfold keys_of; simpl; rewrite Hk; simpl; by rewrite <- app_assoc |].
      split; [rewrite Hlog; simpl; rewrite length_app; simpl; lia |].
      intros k'. rewrite Hstore. simpl.
      destruct (decide (k = k')) as [<- | Hne].
      * rewrite lookup_insert_eq, Hex. by rewrite decide_True.
      * rewrite lookup_insert_ne by done.
        destruct (modulestore w !! k') as [c |] eqn:Hk'; [done |].
        rewrite decide_False; [by rewrite <- option_fmap_compose |].
        unfold has_key. rewrite Hk. intros [= ->]. congruence.
Qed.

(** C7.  When the instructor named on the command line resolves to no
    user the command raises [CommandError] with the message "No user
    <name> found." and exits with a non-zero status; the world it leaves
    is the one it found: no call of [create_new_course_in_store], no
    course in the modulestore, no log record. *)
Theorem unknown_instructor_fails_fast
    (instructor : string) (course_runs : list CourseRun) (w : World) :
  user_from_str instructor = None →
  ∃ w',
    handle user_from_str from_string text_type instructor course_runs w
    = (w', Raise (Py.CommandError ("No user " +:+ instructor +:+ " found.")))
    ∧ w' = w
    ∧ create_calls w' = create_calls w
    ∧ modulestore w' = modulestore w
    ∧ log w' = log w
    ∧ Py.exit_status
        (handle user_from_str from_string text_type instructor course_runs w).2 = 1.
Proof.
  intros Hnone. exists w. unfold handle, get_user. rewrite Hnone. done.
Qed.

(** C8, as amended.  A catalog entry whose course exists already makes
    [create_new_course_in_store] raise [DuplicateCourseError]; the
    command logs a warning and goes on with the rest of the list from a
    world that differs by that one call and that one warning (the entry
    is not tried again).  So for every list of entries with well-formed
    keys the command returns, has called [create_new_course_in_store]
    once per entry in list order, has logged one record per entry, has
    left the courses that existed as they were, and has created the
    course of every entry that was not a duplicate when its turn came,
    whatever came before it in the list. *)
Theorem duplicate_course_is_skipped :
  (∀ (instructor : User) (course_run : CourseRun) (rest : list CourseRun)
     (w : World) (k : CourseKey) (existing : Course),
     from_string (key course_run) = Some k →
     modulestore w !! k = Some existing →
     sync_course_runs from_string text_type instructor (course_run :: rest) w
     = sync_course_runs from_string text_type instructor rest
         (logger Py.WARNING "Course already exists for %s, %s, %s. Skipping"
            [Py.Str (org k); Py.Str (course k); Py.Str (run k)] (record_call k w)))
  ∧ (∀ (name : string) (instructor : User) (course_runs : list CourseRun) (w : World),
       user_from_str name = Some instructor →
       Forall (fun course_run => is_Some (from_string (key course_run))) course_runs →
       ∃ w',
         handle user_from_str from_string text_type name course_runs w = (w', Ok tt)
         ∧ create_calls w' = create_calls w ++ keys_of from_string course_runs
         ∧ length (log w') = (length (log w) + length course_runs)%nat
         ∧ (∀ k c, modulestore w !! k = Some c → modulestore w' !! k = Some c)
         ∧ (∀ before course_run after k,
              course_runs = before ++ course_run :: after →
              has_key from_string k course_run →
              modulestore w !! k = None →
              Forall (fun earlier => ¬ has_key from_string k earlier) before →
              modulestore w' !! k = Some (course_for instructor k course_run))).
Proof.
  split.
  - intros instructor course_run rest w k existing Hk Hex. simpl.
    by rewrite (sync_course_run_duplicate _ _ _ _ _ Hk Hex).
  - intros name instructor course_runs w Huser Hvalid.
    destruct (sync_course_runs_spec instructor course_runs w Hvalid)
      as (w' & Hrun & Hcalls & Hlog & Hstore).
    exists w'. unfold handle, get_user. rewrite Huser.
    split; [done |]. split; [done |]. split; [done |]. split.
    + intros k c Hk. by rewrite Hstore, Hk.
    + intros before course_run after k -> Hk Hnew Hbefore.
      rewrite Hstore, Hnew.
      assert (Hfind : list_find (has_key from_string k) (before ++ course_run :: after)
                      = Some (length before, course_run)).
      { apply list_find_Some. split; [by rewrite list_lookup_middle |].
        split; [done |]. intros j y Hj Hlt.
        rewrite lookup_app_l in Hj by done.
        rewrite Forall_forall in Hbefore. apply Hbefore.
        by apply list_elem_of_lookup_2 in Hj. }
      by rewrite Hfind.
Qed.

End SyncCoursesFacts.

Section SyncCoursesExamples.

Import SyncCourses.

Lemma unknown_instructor_fails_fast_witness :
  ∃ w',
    handle example_user_from_str example_from_string example_text_type
      "nobody@example.com" [demo_run; other_run] empty_world
    = (w', Raise (Py.CommandError "No user nobody@example.com found."))
    ∧ w' = empty_world.
Proof.
  destruct (unknown_instructor_fails_fast example_user_from_str example_from_string
              example_text_type "nobody@example.com" [demo_run; other_run] empty_world)
    as (w' & H1 & H2 & _).
  - reflexivity.
  - exists w'. split; assumption.
Defined.

(** C8 does not hold for every input list: after a duplicate, an entry
    whose key is malformed ends the run with [InvalidKeyError], which
    the command does not catch, and the entry behind it, whose course
    does not exist yet, is never created. *)
Lemma malformed_key_after_duplicate_stops_the_run :
  is_Some (modulestore world_with_demo !! demo_key)
  ∧ example_from_string (key other_run) = Some other_key
  ∧ modulestore world_with_demo !! other_key = None
  ∧ ∃ w',
      handle example_user_from_str example_from_string example_text_type
        "staff@example.com"
        [demo_run; {| key := Some "edX/Other/2019_T2"; title := Some "Another course" |};
         other_run]
        world_with_demo
      = (w', Raise Py.InvalidKeyError)
      ∧ create_calls w' = [demo_key]
      ∧ modulestore w' !! other_key = None.
Proof.
  split; [by eexists |]. split; [reflexivity |]. split; [reflexivity |].
  eexists. split; [vm_compute; reflexivity |]. split; reflexivity.
Qed.

Lemma duplicate_course_is_skipped_witness :
  ∃ w',
    handle example_user_from_str example_from_string example_text_type
      "staff@example.com" [demo_run; other_run] world_with_demo = (w', Ok tt)
    ∧ create_calls w' = [demo_key; other_key]
    ∧ modulestore w' !! other_key = Some (course_for staff other_key other_run)
    ∧ modulestore w' !! demo_key = modulestore world_with_demo !! demo_key.
Proof.
  destruct (proj2 (duplicate_course_is_skipped example_user_from_str example_from_string
                     example_text_type)
              "staff@example.com" staff [demo_run; other_run] world_with_demo)
    as (w' & H1 & H2 & _ & H3 & H4).
  - reflexivity.
  - repeat constructor; by eexists.
  - exists w'. split; [assumption |]. split; [exact H2 |]. split.
    + apply (H4 [demo_run] other_run [] other_key); [reflexivity | reflexivity | reflexivity |].
      repeat constructor. vm_compute. discriminate.
    + apply H3. reflexivity.
Defined.

End SyncCoursesExamples.

(** ** [send_verification_expiry_email] *)

Section SendVerificationExpiryEmailFacts.

Import SendVerificationExpiryEmail.

Variable settings : Settings.

(** *** Dates *)

Lemma day_pos : 0 < day.
Proof. reflexivity. Qed.

Lemma midnight_bounds (t : Z) : midnight t ≤ t < midnight t + day.
Proof. unfold midnight. pose proof (Z.mod_pos_bound t day day_pos). lia. Qed.

Lemma midnight_mono (t t' : Z) : t ≤ t' → midnight t ≤ midnight t'.
Proof.
  intros Hle. unfold midnight.
  pose proof (Z.div_mod t day). pose proof (Z.div_mod t' day).
  pose proof (Z.div_le_mono t t' day day_pos Hle).
  pose proof day_pos. nia.
Qed.

Lemma date_midnight (t : Z) : date (midnight t) = date t.
Proof.
  unfold date, midnight. pose proof day_pos.
  rewrite Zminus_mod_idemp_r || idtac.
  rewrite (Z.div_mod t day) at 1 by lia.
  replace (day * (t `div` day) + t `mod` day - t `mod` day)
    with ((t `div` day) * day) by lia.
  rewrite Z.div_mul by lia. done.
Qed.

(** *** The selection *)

Lemma to_send_elem (now : Z) (w : World) (pk : Z) (v : Verification) :
  (pk, v) ∈ to_send settings now w ↔
  verifications w !! pk = Some v
  ∧ selected settings now v = true ∧ due settings now v = true.
Proof.
  unfold to_send, query. rewrite !list_elem_of_filter, elem_of_map_to_list.
  simpl. tauto.
Qed.

Lemma to_send_NoDup (now : Z) (w : World) : NoDup (to_send settings now w).*1.
Proof.
  apply (sublist_NoDup _ ((map_to_list (verifications w)).*1)).
  - apply NoDup_fst_map_to_list.
  - apply fmap_sublist. unfold to_send, query.
    etrans; apply sublist_filter.
Qed.

Lemma to_send_not_elem (now : Z) (w : World) (pk : Z) (v : Verification) :
  verifications w !! pk = Some v →
  selected settings now v && due settings now v = false →
  pk ∉ (to_send settings now w).*1.
Proof.
  intros Hv Hno Hin. apply list_elem_of_fmap in Hin as ([pk' v'] & -> & Hin).
  apply to_send_elem in Hin as (Hv' & Hs & Hd). simpl in *.
  rewrite Hv in Hv'. injection Hv' as <-. by rewrite Hs, Hd in Hno.
Qed.

Lemma to_send_absent (now : Z) (w : World) (pk : Z) :
  verifications w !! pk = None → pk ∉ (to_send settings now w).*1.
Proof.
  intros Hv Hin. apply list_elem_of_fmap in Hin as ([pk' v'] & -> & Hin).
  apply to_send_elem in Hin as (Hv' & _). simpl in *. congruence.
Qed.

(** *** The messages about one verification *)

Lemma emails_about_app (pk : Z) (box box' : list EmailMessage) :
  emails_about pk (box ++ box') = emails_about pk box ++ emails_about pk box'.
Proof. apply filter_app. Qed.

Lemma emails_about_others (pk : Z) (entries : list (Z * Verification)) :
  pk ∉ entries.*1 → emails_about pk (message_for <$> entries) = [].
Proof.
  induction entries as [| [pk' v'] entries IH]; [done |].
  intros Hnot. apply not_elem_of_cons in Hnot as [Hne Hnot].
  unfold emails_about in *. simpl in *. rewrite filter_cons, decide_False; [auto |].
  simpl. congruence.
Qed.

Lemma emails_about_one (pk : Z) (v : Verification) (entries : list (Z * Verification)) :
  NoDup entries.*1 → (pk, v) ∈ entries →
  emails_about pk (message_for <$> entries) = [message_for (pk, v)].
Proof.
  induction entries as [| [pk' v'] entries IH]; intros Hnd Hin.
  - by apply elem_of_nil in Hin.
  - apply NoDup_cons in Hnd as [Hfresh Hnd].
    unfold emails_about in *. simpl. rewrite filter_cons.
    apply elem_of_cons in Hin as [[= <- <-] | Hin].
    + rewrite decide_True by done. f_equal.
      by apply emails_about_others.
    + rewrite decide_False; [by apply IH |]. simpl. intros <-.
      apply Hfresh. by apply (list_elem_of_fmap_2 fst) in Hin.
Qed.

(** *** The dispatch loop *)

Lemma new_expiry_email_date_enrollments (now : Z) (w w' : World) (v : Verification) :
  enrollments w' = enrollments w →
  new_expiry_email_date settings now w' v = new_expiry_email_date settings now w v.
Proof.
  intros He. unfold new_expiry_email_date, send_expiry_email_again. by rewrite He.
Qed.

Lemma foldl_send_one (now : Z) (entries : list (Z * Verification)) (w : World) :
  NoDup entries.*1 →
  let w' := foldl (send_one settings now) w entries in
  enrollments w' = enrollments w
  ∧ log w' = log w
  ∧ outbox w' = outbox w ++ (message_for <$> entries)
  ∧ (∀ pk v, (pk, v) ∈ entries →
       verifications w' !! pk
       = set_expiry_email_date (new_expiry_email_date settings now w v)
           <$> verifications w !! pk)
  ∧ (∀ pk, pk ∉ entries.*1 → verifications w' !! pk = verifications w !! pk).
Proof.
  revert w. induction entries as [| [pk0 v0] entries IH]; intros w Hnd.
  - simpl. rewrite app_nil_r. split; [done |]. split; [done |]. split; [done |].
    split; [| done]. intros pk v Hin. by apply elem_of_nil in Hin.
  - apply NoDup_cons in Hnd as [Hfresh Hnd]. simpl.
    destruct (IH (send_one settings now w (pk0, v0)) Hnd)
      as (Henr & Hlog & Hout & Hin & Hother).
    split; [by rewrite Henr |]. split; [by rewrite Hlog |].
    split; [rewrite Hout; simpl; by rewrite <- app_assoc |].
    split.
    + intros pk v Hel. apply elem_of_cons in Hel as [[= -> ->] | Hel].
      * rewrite Hother by done. simpl. by rewrite lookup_alter_eq.
      * rewrite (Hin _ _ Hel). simpl.
        rewrite lookup_alter_ne; [done |]. intros <-.
        apply Hfresh. by apply (list_elem_of_fmap_2 fst) in Hel.
    + intros pk Hnot. apply not_elem_of_cons in Hnot as [Hne Hnot].
      rewrite (Hother _ Hnot). simpl. by rewrite lookup_alter_ne.
Qed.

(** *** The command in closed form *)

Lemma to_send_logger_info (now : Z) (msg : string) (args : list Py.arg) (w : World) :
  to_send settings now (logger_info msg args w) = to_send settings now w.
Proof. reflexivity. Qed.

Lemma to_send_no_query (now : Z) (w : World) :
  query settings now w = [] → to_send settings now w = [].
Proof. intros Hq. unfold to_send. by rewrite Hq. Qed.

Lemma query_length_zero (now : Z) (w : World) :
  Z.of_nat (length (query settings now w)) = 0 ↔ query settings now w = [].
Proof.
  destruct (query settings now w); simpl; split; intros; (done || lia).
Qed.

(** An actual run sends one message per due verification and rewrites
    the watermark of those verifications only. *)
Lemma handle_commit_spec (now : Z) (w : World) :
  ∃ w',
    handle settings false now w = Ok w'
    ∧ enrollments w' = enrollments w
    ∧ outbox w' = outbox w ++ (message_for <$> to_send settings now w)
    ∧ (∀ pk v, (pk, v) ∈ to_send settings now w →
         verifications w' !! pk
         = Some (set_expiry_email_date (new_expiry_email_date settings now w v) v))
    ∧ (∀ pk, pk ∉ (to_send settings now w).*1 →
         verifications w' !! pk = verifications w !! pk).
Proof.
  unfold handle. case_decide as Hq.
  - apply query_length_zero, to_send_no_query in Hq.
    eexists. split; [done |]. rewrite Hq. simpl. rewrite app_nil_r.
    repeat split. intros pk v Hin. by apply elem_of_nil in Hin.
  - rewrite to_send_logger_info.
    destruct (to_send settings now w) as [| entry entries] eqn:Hsend.
    + eexists. split; [done |]. simpl. rewrite app_nil_r.
      repeat split. intros pk v Hin. by apply elem_of_nil in Hin.
    + set (w0 := logger_info _ _ w).
      pose proof (to_send_NoDup now w) as Hnd. rewrite Hsend in Hnd.
      destruct (foldl_send_one now (entry :: entries) w0 Hnd)
        as (Henr & _ & Hout & Hin & Hother).
      eexists. split; [done |].
      split; [exact Henr |]. split; [exact Hout |]. split; [| exact Hother].
      intros pk v Hel. rewrite (Hin _ _ Hel).
      rewrite <- Hsend in Hel. apply to_send_elem in Hel as (Hv & _).
      subst w0. simpl. by rewrite Hv.
Qed.

(** A dry run touches neither the table nor the outbox; it logs its report. *)
Lemma handle_dry_run_spec (now : Z) (w : World) :
  handle settings true now w
  = Ok {| verifications := verifications w;
          enrollments := enrollments w;
          outbox := outbox w;
          log := log w ++ dry_run_report settings now w |}.
Proof.
  unfold handle, dry_run_report. case_decide as Hq.
  - apply query_length_zero in Hq. by rewrite Hq.
  - rewrite to_send_logger_info.
    destruct (query settings now w) as [| q qs] eqn:Hquery; [done |].
    destruct (to_send settings now w) as [| entry entries] eqn:Hsend.
    + done.
    + unfold logger_info. simpl. by rewrite <- app_assoc.
Qed.

(** What an actual run does to one verification. *)
Lemma handle_commit_on_due (now : Z) (w : World) (pk : Z) (v : Verification) :
  verifications w !! pk = Some v →
  selected settings now v = true → due settings now v = true →
  ∃ w',
    handle settings false now w = Ok w'
    ∧ enrollments w' = enrollments w
    ∧ emails_about pk (outbox w') = emails_about pk (outbox w) ++ [message_for (pk, v)]
    ∧ verifications w' !! pk
      = Some (set_expiry_email_date (new_expiry_email_date settings now w v) v).
Proof.
  intros Hv Hs Hd.
  assert (Hin : (pk, v) ∈ to_send settings now w) by by apply to_send_elem.
  destruct (handle_commit_spec now w) as (w' & Hrun & Henr & Hout & Hset & _).
  exists w'. split; [done |]. split; [done |]. split; [| by apply Hset].
  rewrite Hout, emails_about_app. f_equal.
  apply emails_about_one; [apply to_send_NoDup | done].
Qed.

Lemma handle_commit_on_other (now : Z) (w : World) (pk : Z) (v : Verification) :
  verifications w !! pk = Some v →
  selected settings now v && due settings now v = false →
  ∃ w',
    handle settings false now w = Ok w'
    ∧ enrollments w' = enrollments w
    ∧ emails_about pk (outbox w') = emails_about pk (outbox w)
    ∧ verifications w' !! pk = Some v.
Proof.
  intros Hv Hno.
  pose proof (to_send_not_elem now w pk v Hv Hno) as Hnot.
  destruct (handle_commit_spec now w) as (w' & Hrun & Henr & Hout & _ & Hother).
  exists w'. split; [done |]. split; [done |].
  split; [| by rewrite Hother].
  rewrite Hout, emails_about_app, emails_about_others by done. by rewrite app_nil_r.
Qed.

(** *** Dates of the window *)

Lemma threshold_in_range (now : Z) :
  1 ≤ DAYS_RANGE settings →
  start_date settings now ≤ now - timedelta (DAYS_RANGE settings) < end_date now.
Proof.
  intros Hd. unfold start_date, end_date, timedelta.
  pose proof (midnight_bounds now). pose proof day_pos. nia.
Qed.

Lemma day_before_threshold_out_of_range (now : Z) :
  now - timedelta (DAYS_RANGE settings + 1) < start_date settings now.
Proof.
  unfold start_date, end_date, timedelta.
  pose proof (midnight_bounds now). lia.
Qed.

(** With a date range shorter than the resend schedule, a verification
    that has reached the resend bound expired before the range of the
    run, and of every later run. *)
Lemma bound_reached_before_range (now now' : Z) (v : Verification) :
  DAYS_RANGE settings < RESEND_DAYS settings * (DEFAULT_EMAILS settings - 1) →
  resend_bound_reached settings now v = true →
  now ≤ now' →
  expiry_date v < start_date settings now'.
Proof.
  intros Hsane Hreached Hle. unfold resend_bound_reached in Hreached.
  apply bool_decide_eq_true in Hreached. unfold days in Hreached.
  unfold start_date, end_date, timedelta.
  pose proof (midnight_bounds now'). pose proof day_pos.
  pose proof (Z.div_mod (now - expiry_date v) day).
  pose proof (Z.mod_pos_bound (now - expiry_date v) day day_pos).
  nia.
Qed.

Lemma not_selected_outside_range (now : Z) (v : Verification) :
  expiry_email_date v = None →
  expiry_date v < start_date settings now →
  selected settings now v = false.
Proof.
  intros Hnone Hout. unfold selected. rewrite Hnone.
  rewrite (bool_decide_eq_false_2 (start_date settings now ≤ expiry_date v)) by lia.
  by rewrite andb_false_r.
Qed.

Lemma selected_in_range (now : Z) (v : Verification) :
  status v = "approved" →
  start_date settings now ≤ expiry_date v → expiry_date v < end_date now →
  selected settings now v = true.
Proof.
  intros Hs Hlo Hhi. unfold selected.
  by rewrite !bool_decide_eq_true_2.
Qed.

Lemma selected_for_resend (now : Z) (v : Verification) (sent : Z) :
  status v = "approved" →
  expiry_email_date v = Some sent → sent ≤ date_resend_days_ago settings now →
  selected settings now v = true ∧ due settings now v = true.
Proof.
  intros Hs Hsent Hle. unfold selected, due. rewrite Hsent.
  split; [| by apply bool_decide_eq_true_2].
  apply andb_true_intro. split; [by apply bool_decide_eq_true_2 |].
  apply orb_true_intro. right. by apply bool_decide_eq_true_2.
Qed.

Lemma not_due_within_cooldown (now : Z) (v : Verification) (sent : Z) :
  expiry_email_date v = Some sent → date_resend_days_ago settings now < sent →
  due settings now v = false.
Proof.
  intros Hsent Hlt. unfold due. rewrite Hsent.
  apply bool_decide_eq_false_2. lia.
Qed.

(** A verification that reached the resend bound and was left with a
    null [expiry_email_date] is not selected by any later run. *)
Lemma handle_each_leaves_cleared (now : Z) (later : list Z) (w : World)
    (pk : Z) (v : Verification) :
  DAYS_RANGE settings < RESEND_DAYS settings * (DEFAULT_EMAILS settings - 1) →
  resend_bound_reached settings now v = true →
  Forall (fun now' => now ≤ now') later →
  verifications w !! pk = Some (set_expiry_email_date None v) →
  ∃ w',
    handle_each settings later w = Ok w'
    ∧ emails_about pk (outbox w') = emails_about pk (outbox w)
    ∧ verifications w' !! pk = Some (set_expiry_email_date None v).
Proof.
  intros Hsane Hbound Hlater. revert w.
  induction Hlater as [| now' later Hle _ IH]; intros w Hv.
  - by exists w.
  - destruct (handle_commit_on_other now' w pk _ Hv) as (w1 & Hrun & _ & Hmail & Hsame).
    { rewrite not_selected_outside_range; [done | done |]. simpl.
      by apply (bound_reached_before_range now). }
    destruct (IH w1 Hsame) as (w' & Hrun' & Hmail' & Hsame').
    exists w'. simpl. rewrite Hrun. simpl.
    split; [done |]. split; [by rewrite Hmail', Hmail | done].
Qed.

(** With a date range shorter than the resend schedule, as in the
    platform's settings, a verification that expired within the range
    has not reached the resend bound. *)
Lemma in_range_before_bound (now : Z) (v : Verification) :
  DAYS_RANGE settings < RESEND_DAYS settings * (DEFAULT_EMAILS settings - 1) →
  start_date settings now ≤ expiry_date v →
  resend_bound_reached settings now v = false.
Proof.
  intros Hsane Hlo. unfold resend_bound_reached. apply bool_decide_eq_false_2.
  unfold start_date, end_date, timedelta in Hlo. unfold days.
  pose proof (midnight_bounds now). pose proof day_pos.
  assert ((now - expiry_date v) / day
          < RESEND_DAYS settings * (DEFAULT_EMAILS settings - 1));
    [| lia].
  apply Z.div_lt_upper_bound; [done | nia].
Qed.

Lemma not_selected_not_in_range (now : Z) (v : Verification) :
  expiry_email_date v = None →
  ¬ (start_date settings now ≤ expiry_date v < end_date now) →
  selected settings now v = false.
Proof.
  intros Hnone Hout. unfold selected. rewrite Hnone, orb_false_r.
  apply andb_false_intro2, andb_false_iff.
  destruct (decide (start_date settings now ≤ expiry_date v)) as [Hlo | Hlo].
  - right. apply bool_decide_eq_false_2. lia.
  - left. by apply bool_decide_eq_false_2.
Qed.

(** C5, as amended.  An approved verification to which a message is due
    (none sent yet, or the cooldown elapsed) and whose expiry date lies
    in the date range of the run, at the threshold or later and before
    today, gets exactly one message in an actual run.  Its
    [expiry_email_date] becomes the date of the run, that is the run's
    [now] at midnight, unless the resend bound is reached and the user
    has no enrollment in the verified track, in which case it becomes
    null; the bound is not reached within the range when the range is
    shorter than the resend schedule.  A verification that has had no
    message and whose expiry date lies outside the range, be it by one
    day as in [test_expiry_date_range], gets no message and keeps a null
    [expiry_email_date]. *)
Theorem expiry_in_range_gets_one_email :
  (∀ (now : Z) (w : World) (pk : Z) (v : Verification),
     verifications w !! pk = Some v →
     status v = "approved" →
     due settings now v = true →
     start_date settings now ≤ expiry_date v →
     expiry_date v < end_date now →
     ∃ w',
       handle settings false now w = Ok w'
       ∧ emails_about pk (outbox w') = emails_about pk (outbox w) ++ [message_for (pk, v)]
       ∧ verifications w' !! pk
         = Some (set_expiry_email_date
                   (if resend_bound_reached settings now v
                       && negb (existsb (is_verified_enrollment (user v)) (enrollments w))
                    then None
                    else Some (midnight now)) v)
       ∧ midnight now ≤ now
       ∧ date (midnight now) = date now)
  ∧ (∀ (now : Z) (w : World) (pk : Z) (v : Verification),
       verifications w !! pk = Some v →
       expiry_email_date v = None →
       ¬ (start_date settings now ≤ expiry_date v < end_date now) →
       ∃ w',
         handle settings false now w = Ok w'
         ∧ emails_about pk (outbox w') = emails_about pk (outbox w)
         ∧ verifications w' !! pk = Some v
         ∧ expiry_email_date v = None)
  ∧ (∀ now : Z,
       (1 ≤ DAYS_RANGE settings →
        start_date settings now ≤ now - timedelta (DAYS_RANGE settings) < end_date now)
       ∧ now - timedelta (DAYS_RANGE settings + 1) < start_date settings now)
  ∧ (∀ (now : Z) (v : Verification),
       DAYS_RANGE settings < RESEND_DAYS settings * (DEFAULT_EMAILS settings - 1) →
       start_date settings now ≤ expiry_date v →
       resend_bound_reached settings now v = false).
Proof.
  split; [| split; [| split]]; [| | | apply in_range_before_bound].
  - intros now w pk v Hv Hs Hdue Hlo Hhi.
    assert (Hsel : selected settings now v = true) by by apply selected_in_range.
    destruct (handle_commit_on_due now w pk v Hv Hsel Hdue)
      as (w' & Hrun & _ & Hmail & Hset).
    exists w'. split; [done |]. split; [done |].
    split; [| split; [apply midnight_bounds | apply date_midnight]].
    rewrite Hset. unfold new_expiry_email_date, send_expiry_email_again.
    destruct (resend_bound_reached settings now v); [| done].
    by destruct (existsb _ _).
  - intros now w pk v Hv Hnone Hout.
    destruct (handle_commit_on_other now w pk v Hv) as (w' & Hrun & _ & Hmail & Hsame).
    { by rewrite not_selected_not_in_range. }
    by exists w'.
  - intros now. split; [apply threshold_in_range | apply day_before_threshold_out_of_range].
Qed.

(** C6.  A verification whose [expiry_email_date] is less than
    [RESEND_DAYS] before the day of the run gets no message in that run
    and is left as it is.  So when a run sent a message about a
    verification and set its [expiry_email_date], a second run within the
    cooldown (at the same instant, or on any day less than [RESEND_DAYS]
    days after the day of the first) sends no further message about it. *)
Theorem no_email_within_cooldown :
  (∀ (now : Z) (w : World) (pk : Z) (v : Verification) (sent : Z),
     verifications w !! pk = Some v →
     expiry_email_date v = Some sent →
     date_resend_days_ago settings now < sent →
     ∃ w',
       handle settings false now w = Ok w'
       ∧ emails_about pk (outbox w') = emails_about pk (outbox w)
       ∧ verifications w' !! pk = Some v)
  ∧ (∀ (now now' : Z) (w : World) (pk : Z) (v : Verification),
       verifications w !! pk = Some v →
       selected settings now v = true →
       due settings now v = true →
       send_expiry_email_again settings now w v = true →
       midnight now' - midnight now < timedelta (RESEND_DAYS settings) →
       ∃ w1 w2,
         handle settings false now w = Ok w1
         ∧ handle settings false now' w1 = Ok w2
         ∧ emails_about pk (outbox w1)
           = emails_about pk (outbox w) ++ [message_for (pk, v)]
         ∧ emails_about pk (outbox w2) = emails_about pk (outbox w1)).
Proof.
  assert (Hfirst : ∀ (now : Z) (w : World) (pk : Z) (v : Verification) (sent : Z),
     verifications w !! pk = Some v →
     expiry_email_date v = Some sent →
     date_resend_days_ago settings now < sent →
     ∃ w',
       handle settings false now w = Ok w'
       ∧ emails_about pk (outbox w') = emails_about pk (outbox w)
       ∧ verifications w' !! pk = Some v).
  { intros now w pk v sent Hv Hsent Hlt.
    destruct (handle_commit_on_other now w pk v Hv) as (w' & Hrun & _ & Hmail & Hsame).
    { rewrite (not_due_within_cooldown now v sent) by done. apply andb_false_r. }
    by exists w'. }
  split; [exact Hfirst |].
  intros now now' w pk v Hv Hsel Hdue Hagain Hcool.
  destruct (handle_commit_on_due now w pk v Hv Hsel Hdue)
    as (w1 & Hrun1 & _ & Hmail1 & Hset1).
  unfold new_expiry_email_date in Hset1. rewrite Hagain in Hset1.
  destruct (Hfirst now' w1 pk _ (midnight now) Hset1) as (w2 & Hrun2 & Hmail2 & _).
  { done. }
  { unfold date_resend_days_ago, end_date. lia. }
  by exists w1, w2.
Qed.

(** C4, as amended.  When a message is sent about a verification that
    has reached the resend bound ([RESEND_DAYS * (DEFAULT_EMAILS - 1)]
    days or more since its expiry), the command sets
    [expiry_email_date] to null if the user has no enrollment in the
    verified track, and to the date of the run if the user has one.  A
    verification left with a null [expiry_email_date] is, while it is not
    modified from outside, never selected by a later run (the date range
    being shorter than the resend schedule).  A verification whose
    [expiry_email_date] is set gets exactly one more message in a run
    after the cooldown has elapsed. *)
Theorem resend_bound_clears_expiry_email_date :
  (∀ (now : Z) (w : World) (pk : Z) (v : Verification),
     verifications w !! pk = Some v →
     selected settings now v = true →
     due settings now v = true →
     resend_bound_reached settings now v = true →
     ∃ w',
       handle settings false now w = Ok w'
       ∧ emails_about pk (outbox w') = emails_about pk (outbox w) ++ [message_for (pk, v)]
       ∧ verifications w' !! pk
         = Some (set_expiry_email_date
                   (if existsb (is_verified_enrollment (user v)) (enrollments w)
                    then Some (midnight now) else None) v))
  ∧ (∀ (now : Z) (later : list Z) (w : World) (pk : Z) (v : Verification),
       DAYS_RANGE settings < RESEND_DAYS settings * (DEFAULT_EMAILS settings - 1) →
       resend_bound_reached settings now v = true →
       Forall (fun now' => now ≤ now') later →
       verifications w !! pk = Some (set_expiry_email_date None v) →
       ∃ w',
         handle_each settings later w = Ok w'
         ∧ emails_about pk (outbox w') = emails_about pk (outbox w)
         ∧ verifications w' !! pk = Some (set_expiry_email_date None v))
  ∧ (∀ (now : Z) (w : World) (pk : Z) (v : Verification) (sent : Z),
       verifications w !! pk = Some v →
       status v = "approved" →
       expiry_email_date v = Some sent →
       sent ≤ date_resend_days_ago settings now →
       ∃ w',
         handle settings false now w = Ok w'
         ∧ emails_about pk (outbox w')
           = emails_about pk (outbox w) ++ [message_for (pk, v)]).
Proof.
  split; [| split].
  - intros now w pk v Hv Hsel Hdue Hbound.
    destruct (handle_commit_on_due now w pk v Hv Hsel Hdue)
      as (w' & Hrun & _ & Hmail & Hset).
    exists w'. split; [done |]. split; [done |].
    rewrite Hset. unfold new_expiry_email_date, send_expiry_email_again.
    rewrite Hbound. by destruct (existsb _ _).
  - intros now later w pk v Hsane Hbound Hlater Hv.
    by apply (handle_each_leaves_cleared now).
  - intros now w pk v sent Hv Hs Hsent Hle.
    destruct (selected_for_resend now v sent Hs Hsent Hle) as [Hsel Hdue].
    destruct (handle_commit_on_due now w pk v Hv Hsel Hdue)
      as (w' & Hrun & _ & Hmail & _).
    by exists w'.
Qed.

End SendVerificationExpiryEmailFacts.

Section SendVerificationExpiryEmailExamples.

Import SendVerificationExpiryEmail.

(** The model passes the test-suite, with the platform's settings, in
    the afternoon and at midnight. *)
Example test_expiry_date_range_passes :
  test_expiry_date_range handle default_settings a_thursday_afternoon
  ∧ test_expiry_date_range handle default_settings a_thursday_at_midnight.
Proof. by vm_compute. Qed.

Example test_expiry_email_date_range_passes :
  test_expiry_email_date_range handle default_settings a_thursday_afternoon
  ∧ test_expiry_email_date_range handle default_settings a_thursday_at_midnight.
Proof. by vm_compute. Qed.

Example test_send_verification_expiry_email_passes :
  test_send_verification_expiry_email handle default_settings a_thursday_afternoon
  ∧ test_send_verification_expiry_email handle default_settings a_thursday_at_midnight.
Proof. by vm_compute. Qed.

Example test_email_already_sent_passes :
  test_email_already_sent handle default_settings a_thursday_afternoon
  ∧ test_email_already_sent handle default_settings a_thursday_at_midnight.
Proof. by vm_compute. Qed.

Example test_no_verification_found_passes :
  test_no_verification_found handle default_settings a_thursday_afternoon
  ∧ test_no_verification_found handle default_settings a_thursday_at_midnight.
Proof. by vm_compute. Qed.

Example test_dry_run_flag_passes :
  test_dry_run_flag handle default_settings a_thursday_afternoon
  ∧ test_dry_run_flag handle default_settings a_thursday_at_midnight.
Proof. by vm_compute. Qed.

Example test_not_enrolled_in_verified_course_passes :
  test_not_enrolled_in_verified_course handle default_settings a_thursday_afternoon
  ∧ test_not_enrolled_in_verified_course handle default_settings a_thursday_at_midnight.
Proof. by vm_compute. Qed.

Example test_number_of_emails_sent_passes :
  test_number_of_emails_sent handle default_settings a_thursday_afternoon
  ∧ test_number_of_emails_sent handle default_settings a_thursday_at_midnight.
Proof. by vm_compute. Qed.

(** [test_user_enrolled_in_verified_course] passes whatever the settings
    and the time of the run. *)
Lemma test_user_enrolled_in_verified_course_passes (settings : Settings) (now : Z) :
  test_user_enrolled_in_verified_course handle settings now.
Proof.
  unfold test_user_enrolled_in_verified_course, call_command, passes,
    enrolled_in_verified_course.
  set (v := verification_at_resend_bound settings now). set (w := save 1 v _).
  assert (Hv : verifications w !! 1 = Some v) by apply lookup_insert_eq.
  destruct (selected_for_resend settings now v
              (midnight now - timedelta (resend_days settings)) eq_refl eq_refl)
    as [Hsel Hdue]; [done |].
  destruct (handle_commit_on_due settings now w 1 v Hv Hsel Hdue)
    as (w' & -> & _ & _ & Hset).
  unfold get_expiry_email_date. rewrite Hset. simpl. do 2 f_equal.
  unfold new_expiry_email_date, send_expiry_email_again. simpl.
  by destruct (resend_bound_reached settings now v).
Qed.

(** The verification of that test has reached the resend bound, so what
    the test asserts of the command, any command, is that the date
    written is not null. *)
Lemma enrolled_test_asserts_a_date
    (command : Settings → bool → Z → World → Py.result World)
    (settings : Settings) (now : Z) :
  test_user_enrolled_in_verified_course command settings now →
  resend_bound_reached settings now (verification_at_resend_bound settings now) = true
  ∧ ∃ w',
      command settings false now (enrolled_in_verified_course settings now) = Ok w'
      ∧ get_expiry_email_date 1 w' ≠ Some None.
Proof.
  unfold test_user_enrolled_in_verified_course, call_command, passes.
  intros Htest. split.
  - unfold resend_bound_reached, verification_at_resend_bound, approved. simpl.
    apply bool_decide_eq_true_2. unfold days, timedelta, resend_days, default_no_of_emails.
    replace (now - (now - RESEND_DAYS settings * (DEFAULT_EMAILS settings - 1) * day))
      with (RESEND_DAYS settings * (DEFAULT_EMAILS settings - 1) * day) by lia.
    rewrite Z.div_mul; [done | pose proof day_pos; lia].
  - destruct (command settings false now _) as [w' |]; [| done].
    exists w'. split; [done |]. rewrite Htest. discriminate.
Qed.

(** C4 does not hold as stated: in [test_user_enrolled_in_verified_course]
    the verification has reached the resend bound and a message is sent,
    yet its [expiry_email_date] becomes the date of the run, not null,
    and a run fifteen days later selects it and writes again. *)
Lemma enrolled_user_is_written_to_again :
  resend_bound_reached default_settings a_thursday_afternoon
    (verification_at_resend_bound default_settings a_thursday_afternoon) = true
  ∧ ∃ w' w'',
      handle default_settings false a_thursday_afternoon
        (enrolled_in_verified_course default_settings a_thursday_afternoon) = Ok w'
      ∧ length (outbox w') = 1%nat
      ∧ get_expiry_email_date 1 w' = Some (Some (midnight a_thursday_afternoon))
      ∧ get_expiry_email_date 1 w' ≠ Some None
      ∧ handle default_settings false (a_thursday_afternoon + timedelta 15) w' = Ok w''
      ∧ length (emails_about 1 (outbox w'')) = 2%nat.
Proof.
  split; [by vm_compute |].
  eexists _, _. split; [vm_compute; reflexivity |].
  split; [by vm_compute |]. split; [by vm_compute |]. split; [by vm_compute |].
  split; [vm_compute; reflexivity |]. by vm_compute.
Qed.

Lemma resend_bound_clears_expiry_email_date_witness :
  ∃ w',
    handle default_settings false a_thursday_afternoon
      (save 1 (approved 1 (a_thursday_afternoon - timedelta 15)
                 (Some (midnight a_thursday_afternoon - timedelta 15))) setUp) = Ok w'
    ∧ emails_about 1 (outbox w')
      = [message_for (1, approved 1 (a_thursday_afternoon - timedelta 15)
                           (Some (midnight a_thursday_afternoon - timedelta 15)))]
    ∧ get_expiry_email_date 1 w' = Some None.
Proof.
  destruct (proj1 (resend_bound_clears_expiry_email_date default_settings)
              a_thursday_afternoon
              (save 1 (approved 1 (a_thursday_afternoon - timedelta 15)
                         (Some (midnight a_thursday_afternoon - timedelta 15))) setUp)
              1
              (approved 1 (a_thursday_afternoon - timedelta 15)
                 (Some (midnight a_thursday_afternoon - timedelta 15))))
    as (w' & H1 & H2 & H3).
  - reflexivity.
  - reflexivity.
  - reflexivity.
  - reflexivity.
  - exists w'. split; [exact H1 |]. split; [exact H2 |].
    unfold get_expiry_email_date. rewrite H3. reflexivity.
Defined.

(** C5 does not hold as stated.  With [DEFAULT_EMAILS] set to 1 an
    approved verification that expired within the range and has had no
    message gets its message and a null [expiry_email_date]; and with
    the platform's settings the date written is the run's [now] at
    midnight, which in the afternoon is not the time of the run. *)
Lemma in_range_verification_can_end_with_null_date :
  (start_date {| RESEND_DAYS := 15; DAYS_RANGE := 1; DEFAULT_EMAILS := 1 |}
     a_thursday_afternoon
   ≤ a_thursday_afternoon - timedelta 1 < end_date a_thursday_afternoon)
  ∧ (∃ w',
       handle {| RESEND_DAYS := 15; DAYS_RANGE := 1; DEFAULT_EMAILS := 1 |} false
         a_thursday_afternoon
         (save 1 (approved 1 (a_thursday_afternoon - timedelta 1) None) setUp) = Ok w'
       ∧ length (outbox w') = 1%nat
       ∧ get_expiry_email_date 1 w' = Some None)
  ∧ (∃ w',
       handle default_settings false a_thursday_afternoon
         (save 1 (approved 1 (a_thursday_afternoon - timedelta 1) None) setUp) = Ok w'
       ∧ length (outbox w') = 1%nat
       ∧ get_expiry_email_date 1 w' = Some (Some (midnight a_thursday_afternoon))
       ∧ get_expiry_email_date 1 w' ≠ Some (Some a_thursday_afternoon)).
Proof.
  split; [by vm_compute |]. split.
  - eexists. split; [vm_compute; reflexivity |]. by vm_compute.
  - eexists. split; [vm_compute; reflexivity |].
    split; [by vm_compute |]. split; [by vm_compute |]. by vm_compute.
Qed.

Lemma expiry_in_range_gets_one_email_witness :
  ∃ w',
    handle default_settings false a_thursday_afternoon
      (save 1 (approved 1 (a_thursday_afternoon - timedelta 1) None) setUp) = Ok w'
    ∧ emails_about 1 (outbox w')
      = [message_for (1, approved 1 (a_thursday_afternoon - timedelta 1) None)]
    ∧ get_expiry_email_date 1 w' = Some (Some (midnight a_thursday_afternoon)).
Proof.
  destruct (proj1 (expiry_in_range_gets_one_email default_settings)
              a_thursday_afternoon
              (save 1 (approved 1 (a_thursday_afternoon - timedelta 1) None) setUp)
              1 (approved 1 (a_thursday_afternoon - timedelta 1) None))
    as (w' & H1 & H2 & H3 & _).
  - reflexivity.
  - reflexivity.
  - reflexivity.
  - vm_compute. discriminate.
  - reflexivity.
  - exists w'. split; [exact H1 |]. split; [exact H2 |].
    unfold get_expiry_email_date. rewrite H3. reflexivity.
Defined.

Lemma no_email_within_cooldown_witness :
  ∃ w1 w2,
    handle default_settings false a_thursday_afternoon
      (save 1 (approved 1 (a_thursday_afternoon - timedelta 1) None) setUp) = Ok w1
    ∧ handle default_settings false a_thursday_afternoon w1 = Ok w2
    ∧ emails_about 1 (outbox w1)
      = [message_for (1, approved 1 (a_thursday_afternoon - timedelta 1) None)]
    ∧ emails_about 1 (outbox w2) = emails_about 1 (outbox w1).
Proof.
  destruct (proj2 (no_email_within_cooldown default_settings)
              a_thursday_afternoon a_thursday_afternoon
              (save 1 (approved 1 (a_thursday_afternoon - timedelta 1) None) setUp)
              1 (approved 1 (a_thursday_afternoon - timedelta 1) None))
    as (w1 & w2 & H1 & H2 & H3 & H4).
  - reflexivity.
  - reflexivity.
  - reflexivity.
  - reflexivity.
  - reflexivity.
  - exists w1, w2. repeat split; assumption.
Defined.

End SendVerificationExpiryEmailExamples.

(** ** Across the commands *)

Section Commands.

(** C3.  Without [--commit], [expire_old_entitlements] enqueues no task
    and leaves the entitlements as they are; it logs the number of
    batches, which is the number of tasks the run with [--commit] would
    enqueue.  With [--dry-run], [send_verification_expiry_email] sends no
    message and leaves every verification, so every [expiry_email_date],
    as it is; it logs the number of verifications selected and, when
    messages would be sent, how many, which is the number of messages the
    actual run sends. *)
Theorem preview_and_dry_run_change_nothing :
  (∀ (options : ExpireOldEntitlements.Options) (w : ExpireOldEntitlements.World),
     ExpireOldEntitlements.opt_commit options = false →
     let n := ExpireOldEntitlements.ceil_div (ExpireOldEntitlements.count w)
                (ExpireOldEntitlements.batch_size options) in
     ∃ w' w'',
       ExpireOldEntitlements.handle options w = Ok w'
       ∧ ExpireOldEntitlements.task_queue w' = ExpireOldEntitlements.task_queue w
       ∧ ExpireOldEntitlements.entitlements w' = ExpireOldEntitlements.entitlements w
       ∧ ExpireOldEntitlements.log w'
         = ExpireOldEntitlements.log w ++
           [Py.mkLog Py.INFO "Looking for entitlements which may be expirable." [];
            Py.mkLog Py.INFO
              "Found %d batches. To enqueue entitlement expiration tasks, pass the -c or --commit flags."
              [Py.Int n]]
       ∧ ExpireOldEntitlements.handle
           {| ExpireOldEntitlements.opt_commit := true;
              ExpireOldEntitlements.opt_batch_size :=
                ExpireOldEntitlements.opt_batch_size options |} w = Ok w''
       ∧ Z.of_nat (length (ExpireOldEntitlements.task_queue w''))
         = Z.of_nat (length (ExpireOldEntitlements.task_queue w)) + n)
  ∧ (∀ (settings : SendVerificationExpiryEmail.Settings) (now : Z)
       (w : SendVerificationExpiryEmail.World),
       ∃ w' w'',
         SendVerificationExpiryEmail.handle settings true now w = Ok w'
         ∧ SendVerificationExpiryEmail.outbox w' = SendVerificationExpiryEmail.outbox w
         ∧ SendVerificationExpiryEmail.verifications w'
           = SendVerificationExpiryEmail.verifications w
         ∧ SendVerificationExpiryEmail.enrollments w'
           = SendVerificationExpiryEmail.enrollments w
         ∧ SendVerificationExpiryEmail.log w'
           = SendVerificationExpiryEmail.log w
             ++ SendVerificationExpiryEmail.dry_run_report settings now w
         ∧ SendVerificationExpiryEmail.handle settings false now w = Ok w''
         ∧ length (SendVerificationExpiryEmail.outbox w'')
           = (length (SendVerificationExpiryEmail.outbox w)
              + length (SendVerificationExpiryEmail.to_send settings now w))%nat).
Proof.
  split.
  - intros options w Hc n.
    pose proof (handle_preview options w Hc) as Hpre.
    pose proof (handle_commit
                  {| ExpireOldEntitlements.opt_commit := true;
                     ExpireOldEntitlements.opt_batch_size :=
                       ExpireOldEntitlements.opt_batch_size options |} w eq_refl) as Hcom.
    cbv zeta in Hpre, Hcom.
    eexists _, _. split; [exact Hpre |]. split; [done |]. split; [done |].
    split; [done |]. split; [exact Hcom |]. simpl.
    rewrite length_app, Nat2Z.inj_add. f_equal.
    apply length_batches.
    + unfold ExpireOldEntitlements.count. lia.
    + unfold ExpireOldEntitlements.batch_size. lia.
  - intros settings now w.
    destruct (handle_commit_spec settings now w) as (w'' & Hrun & _ & Hout & _).
    eexists _, w''. split; [apply handle_dry_run_spec |]. simpl.
    split; [done |]. split; [done |]. split; [done |]. split; [done |].
    split; [done |]. by rewrite Hout, length_app, length_fmap.
Qed.

Lemma preview_and_dry_run_change_nothing_witness :
  (∃ w',
     ExpireOldEntitlements.handle
       {| ExpireOldEntitlements.opt_commit := false;
          ExpireOldEntitlements.opt_batch_size := 4 |}
       (ExpireOldEntitlements.world_with 10) = Ok w'
     ∧ ExpireOldEntitlements.task_queue w' = []
     ∧ ExpireOldEntitlements.log w'
       = [Py.mkLog Py.INFO "Looking for entitlements which may be expirable." [];
          Py.mkLog Py.INFO
            "Found %d batches. To enqueue entitlement expiration tasks, pass the -c or --commit flags."
            [Py.Int 3]]).
Proof.
  destruct (proj1 preview_and_dry_run_change_nothing
              {| ExpireOldEntitlements.opt_commit := false;
                 ExpireOldEntitlements.opt_batch_size := 4 |}
              (ExpireOldEntitlements.world_with 10))
    as (w' & w'' & H1 & H2 & _ & H3 & _).
  - reflexivity.
  - exists w'. split; [exact H1 |]. split; [exact H2 |]. exact H3.
Defined.

(** C9 does not hold of [sync_courses]: for an instructor that resolves
    to no user the command raises [CommandError], which ends the process
    with a non-zero status. *)
Lemma sync_courses_exits_with_failure :
  (SyncCourses.handle SyncCourses.example_user_from_str SyncCourses.example_from_string
     SyncCourses.example_text_type "nobody@example.com"
     [SyncCourses.demo_run] SyncCourses.empty_world).2
  = Raise (Py.CommandError "No user nobody@example.com found.")
  ∧ Py.exit_status
      (SyncCourses.handle SyncCourses.example_user_from_str SyncCourses.example_from_string
         SyncCourses.example_text_type "nobody@example.com"
         [SyncCourses.demo_run] SyncCourses.empty_world).2 ≠ 0.
Proof. split; [reflexivity | vm_compute; discriminate]. Qed.

(** C9, as amended.  [expire_old_entitlements] returns for every input,
    and with no entitlement it logs at info level and enqueues nothing.
    [send_verification_expiry_email] returns for every input, and when
    no verification is selected it logs one record at info level, sends
    nothing and changes nothing.  [sync_courses] returns when the
    instructor resolves to a user and the catalog keys are well-formed,
    and raises [CommandError], a non-zero exit status, when the
    instructor resolves to no user. *)
Theorem commands_exit_status :
  (∀ (options : ExpireOldEntitlements.Options) (w : ExpireOldEntitlements.World),
     Py.exit_status (ExpireOldEntitlements.handle options w) = 0)
  ∧ (∀ (options : ExpireOldEntitlements.Options) (w : ExpireOldEntitlements.World),
       ExpireOldEntitlements.entitlements w = [] →
       ∃ w',
         ExpireOldEntitlements.handle options w = Ok w'
         ∧ ExpireOldEntitlements.task_queue w' = ExpireOldEntitlements.task_queue w
         ∧ ∃ records,
             ExpireOldEntitlements.log w' = ExpireOldEntitlements.log w ++ records
             ∧ Forall (fun r => Py.log_level r = Py.INFO) records)
  ∧ (∀ (settings : SendVerificationExpiryEmail.Settings) (dry_run : bool) (now : Z)
       (w : SendVerificationExpiryEmail.World),
       Py.exit_status (SendVerificationExpiryEmail.handle settings dry_run now w) = 0)
  ∧ (∀ (settings : SendVerificationExpiryEmail.Settings) (dry_run : bool) (now : Z)
       (w : SendVerificationExpiryEmail.World),
       SendVerificationExpiryEmail.query settings now w = [] →
       SendVerificationExpiryEmail.handle settings dry_run now w
       = Ok {| SendVerificationExpiryEmail.verifications :=
                 SendVerificationExpiryEmail.verifications w;
               SendVerificationExpiryEmail.enrollments :=
                 SendVerificationExpiryEmail.enrollments w;
               SendVerificationExpiryEmail.outbox := SendVerificationExpiryEmail.outbox w;
               SendVerificationExpiryEmail.log :=
                 SendVerificationExpiryEmail.log w
                 ++ [SendVerificationExpiryEmail.nothing_found_record settings now] |}
       ∧ Py.log_level (SendVerificationExpiryEmail.nothing_found_record settings now)
         = Py.INFO)
  ∧ (∀ (user_from_str : string → option SyncCourses.User)
       (from_string : option string → option SyncCourses.CourseKey)
       (text_type : SyncCourses.CourseKey → string)
       (name : string) (instructor : SyncCourses.User)
       (course_runs : list SyncCourses.CourseRun) (w : SyncCourses.World),
       user_from_str name = Some instructor →
       Forall (fun course_run => is_Some (from_string (SyncCourses.key course_run)))
         course_runs →
       Py.exit_status
         (SyncCourses.handle user_from_str from_string text_type name course_runs w).2 = 0)
  ∧ (∀ (user_from_str : string → option SyncCourses.User)
       (from_string : option string → option SyncCourses.CourseKey)
       (text_type : SyncCourses.CourseKey → string)
       (name : string) (course_runs : list SyncCourses.CourseRun) (w : SyncCourses.World),
       user_from_str name = None →
       (SyncCourses.handle user_from_str from_string text_type name course_runs w).2
       = Raise (Py.CommandError ("No user " +:+ name +:+ " found."))
       ∧ Py.exit_status
           (SyncCourses.handle user_from_str from_string text_type name course_runs w).2 = 1).
Proof.
  split; [| split; [| split; [| split; [| split]]]].
  - intros options w.
    destruct (handle_enqueues options w) as (w' & -> & _). done.
  - intros options w Hempty.
    assert (Hcount : ExpireOldEntitlements.count w = 0)
      by (unfold ExpireOldEntitlements.count; by rewrite Hempty).
    destruct (ExpireOldEntitlements.opt_commit options) eqn:Hc.
    + eexists. split; [by apply handle_commit |]. simpl.
      rewrite Hcount, batches_eq, ceil_div_zero; [| done | apply batch_size_clamp].
      split; [by rewrite app_nil_r |].
      eexists. split; [done |]. by repeat constructor.
    + eexists. split; [by apply handle_preview |]. simpl.
      split; [done |]. eexists. split; [done |]. by repeat constructor.
  - intros settings dry_run now w.
    destruct dry_run.
    + by rewrite handle_dry_run_spec.
    + destruct (handle_commit_spec settings now w) as (w' & -> & _). done.
  - intros settings dry_run now w Hq. split; [| done].
    unfold SendVerificationExpiryEmail.handle. rewrite Hq. done.
  - intros user_from_str from_string text_type name instructor course_runs w Hu Hvalid.
    destruct (sync_course_runs_spec from_string text_type instructor course_runs w Hvalid)
      as (w' & Hrun & _).
    unfold SyncCourses.handle, SyncCourses.get_user. by rewrite Hu, Hrun.
  - intros user_from_str from_string text_type name course_runs w Hu.
    unfold SyncCourses.handle, SyncCourses.get_user. by rewrite Hu.
Qed.

Lemma commands_exit_status_witness :
  Py.exit_status
    (SyncCourses.handle SyncCourses.example_user_from_str SyncCourses.example_from_string
       SyncCourses.example_text_type "staff@example.com"
       [SyncCourses.demo_run; SyncCourses.other_run] SyncCourses.world_with_demo).2 = 0
  ∧ Py.exit_status
      (SyncCourses.handle SyncCourses.example_user_from_str SyncCourses.example_from_string
         SyncCourses.example_text_type "nobody@example.com"
         [SyncCourses.demo_run; SyncCourses.other_run] SyncCourses.world_with_demo).2 = 1.
Proof.
  destruct commands_exit_status as (_ & _ & _ & _ & Hknown & Hunknown).
  split.
  - apply (Hknown _ _ _ _ SyncCourses.staff).
    + reflexivity.
    + repeat constructor; by eexists.
  - apply Hunknown. reflexivity.
Defined.

End Commands.

(** * Further facts *)

(** ** Python helpers *)

Section PyMoreFacts.

(** [int(str(n)) == n] *)
Lemma int_of_str_str (n : Z) : Py.int_of_str (Py.str n) = Some n.
Proof.
  unfold Py.int_of_str, Py.str.
  rewrite NilZero.isi.
  - simpl. f_equal. apply DecimalZ.of_to.
  - intros H. pose proof (DecimalZ.of_to n) as Hn. rewrite H in Hn.
    subst n. discriminate H.
  - intros H. pose proof (DecimalZ.of_to n) as Hn. rewrite H in Hn.
    subst n. discriminate H.
Qed.

Lemma str_inj (m n : Z) : Py.str m = Py.str n → m = n.
Proof.
  intros H. pose proof (int_of_str_str m) as Hm.
  rewrite H, int_of_str_str in Hm. congruence.
Qed.

End PyMoreFacts.

(** ** [expire_old_entitlements], further *)

Section ExpireOldEntitlementsMore.

Import ExpireOldEntitlements.

Lemma count_nonneg (w : World) : 0 ≤ count w.
Proof. unfold count. lia. Qed.

Lemma batches_length_lookup (total size : Z) (i : nat) :
  0 ≤ total → 1 ≤ size →
  (i < length (batches total size))%nat ↔ Z.of_nat i < ceil_div total size.
Proof.
  intros Ht Hs. pose proof (length_batches total size Ht Hs). lia.
Qed.

(** The tasks of a commit run, read off the closed form of [handle]. *)
Lemma handle_commit_tasks (options : Options) (w : World) :
  opt_commit options = true →
  ∃ w',
    handle options w = Ok w'
    ∧ entitlements w' = entitlements w
    ∧ task_queue w' = task_queue w ++ batches (count w) (batch_size options).
Proof.
  intros Hc. destruct (handle_enqueues options w) as (w' & Hrun & Hent & Hq).
  rewrite Hc in Hq. by exists w'.
Qed.

(** X1.  In a commit run every entitlement id k between 1 and N falls in
    the range of the task numbered (k - 1) div B, counting from 0, whose
    logid is that number, and in the range of no other task. *)
Theorem entitlement_id_is_in_one_task (options : Options) (w : World) (k : Z) :
  opt_commit options = true →
  1 ≤ k ≤ count w →
  let B := batch_size options in
  ∃ w' tasks t,
    handle options w = Ok w'
    ∧ task_queue w' = task_queue w ++ tasks
    ∧ tasks !! Z.to_nat ((k - 1) / B) = Some t
    ∧ start t ≤ k < end_ t
    ∧ logid t = Py.str ((k - 1) / B)
    ∧ ∀ i t', tasks !! i = Some t' → start t' ≤ k < end_ t' →
              i = Z.to_nat ((k - 1) / B).
Proof.
  intros Hc Hk B.
  destruct (handle_commit_tasks options w Hc) as (w' & Hrun & _ & Hq).
  destruct (batch_size_clamp options) as [_ HB]. fold B in HB, Hq.
  pose proof (count_nonneg w) as HN.
  set (N := count w) in *. set (q := (k - 1) / B).
  assert (Hq0 : 0 ≤ q) by (apply Z.div_pos; lia).
  assert (HqN : q < ceil_div N B).
  { rewrite ceil_div_pos by lia.
    pose proof (Z.div_le_mono (k - 1) (N - 1) B ltac:(lia) ltac:(lia)). lia. }
  pose proof (Z.div_mod (k - 1) B ltac:(lia)) as Hdm.
  pose proof (Z.mod_pos_bound (k - 1) B ltac:(lia)) as Hmod.
  fold q in Hdm.
  exists w', (batches N B), (batch_task N B q).
  split; [done |]. split; [done |].
  split; [apply batches_lookup; [done | done |]; rewrite Z2Nat.id by done; done |].
  split; [unfold batch_task; simpl; lia |].
  split; [done |].
  intros i t' Hi Hin.
  apply batches_lookup in Hi as [-> Hlt]; [| done | done].
  unfold batch_task in Hin. simpl in Hin.
  assert (Z.of_nat i = q); [| lia].
  apply (Z.div_unique (k - 1) B (Z.of_nat i) (k - 1 - B * Z.of_nat i)); lia.
Qed.

Lemma entitlement_id_is_in_one_task_witness :
  ∃ w' t,
    handle {| opt_commit := true; opt_batch_size := 4 |} (world_with 10) = Ok w'
    ∧ task_queue w' !! 2%nat = Some t
    ∧ start t ≤ 9 < end_ t
    ∧ logid t = "2".
Proof.
  destruct (entitlement_id_is_in_one_task
              {| opt_commit := true; opt_batch_size := 4 |} (world_with 10) 9)
    as (w' & tasks & t & H1 & H2 & H3 & H4 & H5 & _).
  - reflexivity.
  - vm_compute. split; discriminate.
  - exists w', t. split; [exact H1 |]. split; [rewrite H2; exact H3 |].
    split; [exact H4 | exact H5].
Defined.

(** X2.  In a commit run every task but the last names exactly B ids;
    the last names the N - (n - 1) * B ids that are left, at least 1 and
    at most B. *)
Theorem tasks_are_full_except_the_last (options : Options) (w : World) :
  opt_commit options = true →
  let N := count w in
  let B := batch_size options in
  ∃ w' tasks,
    handle options w = Ok w'
    ∧ task_queue w' = task_queue w ++ tasks
    ∧ ∀ (i : nat) t, tasks !! i = Some t →
        ((S i < length tasks)%nat → end_ t - start t = B)
        ∧ (S i = length tasks →
           end_ t - start t = N - Z.of_nat i * B ∧ 1 ≤ N - Z.of_nat i * B ≤ B).
Proof.
  intros Hc N B.
  destruct (handle_commit_tasks options w Hc) as (w' & Hrun & _ & Hq).
  destruct (batch_size_clamp options) as [_ HB]. fold B in HB.
  pose proof (count_nonneg w) as HN. fold N in HN.
  exists w', (batches N B). split; [done |]. split; [done |].
  intros i t Hi.
  pose proof (length_batches N B HN HB) as Hlen.
  apply batches_lookup in Hi as [-> Hlt]; [| done | done].
  pose proof (batch_task_bounds N B (Z.of_nat i) HN HB ltac:(lia)) as Hb.
  cbv zeta in Hb. destruct Hb as (Hs & Hne & Hle & Hsz & Hmid & Hlast).
  split.
  - intros Hi. rewrite Hmid, Hs by lia. lia.
  - intros Hi. rewrite Hlast, Hs by lia. lia.
Qed.

Lemma tasks_are_full_except_the_last_witness :
  ∃ w' tasks,
    handle {| opt_commit := true; opt_batch_size := 4 |} (world_with 10) = Ok w'
    ∧ task_queue w' = task_queue (world_with 10) ++ tasks
    ∧ ∀ (i : nat) t, tasks !! i = Some t →
        ((S i < length tasks)%nat → end_ t - start t = 4).
Proof.
  destruct (tasks_are_full_except_the_last
              {| opt_commit := true; opt_batch_size := 4 |} (world_with 10))
    as (w' & tasks & H1 & H2 & H3).
  - reflexivity.
  - exists w', tasks. split; [exact H1 |]. split; [exact H2 |].
    intros i t Hi. exact (proj1 (H3 i t Hi)).
Defined.

(** X3.  In a commit run the task at position i of the new tasks has
    logid [str(i)] and starts at i * B + 1; [int(logid)] gives the
    position back, and no two tasks of the run share a logid. *)
Theorem logids_number_the_tasks (options : Options) (w : World) :
  opt_commit options = true →
  ∃ w' tasks,
    handle options w = Ok w'
    ∧ task_queue w' = task_queue w ++ tasks
    ∧ (∀ (i : nat) t, tasks !! i = Some t →
         logid t = Py.str (Z.of_nat i)
         ∧ Py.int_of_str (logid t) = Some (Z.of_nat i)
         ∧ start t = Z.of_nat i * batch_size options + 1)
    ∧ NoDup (logid <$> tasks).
Proof.
  intros Hc.
  destruct (handle_commit_tasks options w Hc) as (w' & Hrun & _ & Hq).
  destruct (batch_size_clamp options) as [_ HB].
  pose proof (count_nonneg w) as HN.
  exists w', (batches (count w) (batch_size options)).
  split; [done |]. split; [done |]. split.
  - intros i t Hi. apply batches_lookup in Hi as [-> Hlt]; [| done | done].
    split; [done |]. split; [apply int_of_str_str | done].
  - rewrite batches_eq by done. rewrite <- list_fmap_compose.
    assert (Inj (=) (=) (logid ∘ batch_task (count w) (batch_size options)))
      by (intros m n Hmn; by apply str_inj).
    apply NoDup_fmap_2; [done | apply NoDup_seqZ].
Qed.

Lemma logids_number_the_tasks_witness :
  ∃ w' tasks,
    handle {| opt_commit := true; opt_batch_size := 4 |} (world_with 10) = Ok w'
    ∧ task_queue w' = tasks
    ∧ NoDup (logid <$> tasks).
Proof.
  destruct (logids_number_the_tasks
              {| opt_commit := true; opt_batch_size := 4 |} (world_with 10))
    as (w' & tasks & H1 & H2 & _ & H3).
  - reflexivity.
  - exists w', tasks. split; [exact H1 |]. split; [exact H2 | exact H3].
Defined.

(** X4.  When the batch size is at least the number N > 0 of
    entitlements, a commit run enqueues one task, for the range
    [1, N + 1) with logid "0". *)
Theorem one_task_when_batch_size_covers_all (options : Options) (w : World) :
  opt_commit options = true →
  0 < count w ≤ opt_batch_size options →
  ∃ w',
    handle options w = Ok w'
    ∧ task_queue w'
      = task_queue w ++ [ {| start := 1; end_ := count w + 1; logid := "0" |} ].
Proof.
  intros Hc HN.
  destruct (handle_commit_tasks options w Hc) as (w' & Hrun & _ & Hq).
  exists w'. split; [done |]. rewrite Hq. f_equal.
  assert (HB : batch_size options = opt_batch_size options)
    by (unfold batch_size; lia).
  rewrite HB, batches_eq by lia.
  assert (Hone : ceil_div (count w) (opt_batch_size options) = 1).
  { rewrite ceil_div_pos by lia. rewrite Z.div_small by lia. done. }
  rewrite Hone. unfold Py.range. rewrite seqZ_cons, seqZ_nil by lia. simpl.
  unfold batch_task. simpl. f_equal. f_equal. lia.
Qed.

Lemma one_task_when_batch_size_covers_all_witness :
  ∃ w',
    handle {| opt_commit := true; opt_batch_size := 10000 |} (world_with 10) = Ok w'
    ∧ task_queue w' = [ {| start := 1; end_ := 11; logid := "0" |} ].
Proof.
  destruct (one_task_when_batch_size_covers_all
              {| opt_commit := true; opt_batch_size := 10000 |} (world_with 10))
    as (w' & H1 & H2).
  - reflexivity.
  - vm_compute. split; [reflexivity | discriminate].
  - exists w'. split; [exact H1 | exact H2].
Defined.

(** X5.  Whatever the options, the command returns, leaves the
    entitlements as they are, keeps the tasks already queued and the
    records already logged in front of what it adds, and logs at info
    level only, first that it is looking for entitlements; without
    [--commit] it adds no task. *)
Theorem handle_only_appends (options : Options) (w : World) :
  ∃ w' tasks records,
    handle options w = Ok w'
    ∧ entitlements w' = entitlements w
    ∧ task_queue w' = task_queue w ++ tasks
    ∧ log w' = log w ++ records
    ∧ Forall (fun r => Py.log_level r = Py.INFO) records
    ∧ head records
      = Some (Py.mkLog Py.INFO "Looking for entitlements which may be expirable." [])
    ∧ (opt_commit options = false → tasks = []).
Proof.
  destruct (opt_commit options) eqn:Hc.
  - eexists _, _, _. split; [by apply handle_commit |]. simpl.
    split; [done |]. split; [done |]. split; [done |].
    split; [by repeat constructor |]. done.
  - eexists _, [], _. split; [by apply handle_preview |]. simpl.
    split; [done |]. split; [by rewrite app_nil_r |]. split; [done |].
    split; [by repeat constructor |]. done.
Qed.

(** X6.  The command keeps no record of what it has enqueued: a second
    commit run over the same entitlements enqueues the same tasks once
    more, behind those of the first run. *)
Theorem second_commit_run_enqueues_again (options : Options) (w : World) :
  opt_commit options = true →
  ∃ w1 w2 tasks,
    handle options w = Ok w1
    ∧ handle options w1 = Ok w2
    ∧ task_queue w1 = task_queue w ++ tasks
    ∧ task_queue w2 = task_queue w ++ tasks ++ tasks
    ∧ Z.of_nat (length tasks) = ceil_div (count w) (batch_size options).
Proof.
  intros Hc.
  destruct (handle_commit_tasks options w Hc) as (w1 & Hrun1 & Hent1 & Hq1).
  destruct (handle_commit_tasks options w1 Hc) as (w2 & Hrun2 & _ & Hq2).
  assert (Hcount : count w1 = count w) by (unfold count; by rewrite Hent1).
  rewrite Hcount in Hq2.
  exists w1, w2, (batches (count w) (batch_size options)).
  split; [done |]. split; [done |]. split; [done |].
  split; [by rewrite Hq2, Hq1, <- app_assoc |].
  apply length_batches; [apply count_nonneg | apply batch_size_clamp].
Qed.

Lemma second_commit_run_enqueues_again_witness :
  ∃ w1 w2,
    handle {| opt_commit := true; opt_batch_size := 4 |} (world_with 10) = Ok w1
    ∧ handle {| opt_commit := true; opt_batch_size := 4 |} w1 = Ok w2
    ∧ length (task_queue w1) = 3%nat
    ∧ length (task_queue w2) = 6%nat.
Proof.
  destruct (second_commit_run_enqueues_again
              {| opt_commit := true; opt_batch_size := 4 |} (world_with 10))
    as (w1 & w2 & tasks & H1 & H2 & H3 & H4 & H5).
  - reflexivity.
  - exists w1, w2. split; [exact H1 |]. split; [exact H2 |].
    assert (Hlen : length tasks = 3%nat).
    { apply Nat2Z.inj. rewrite H5. reflexivity. }
    rewrite H3, H4, !length_app, Hlen. split; reflexivity.
Defined.

(** X7.  The number of batches grows with the number of entitlements
    and shrinks as the supplied batch size grows: fewer entitlements and
    a larger batch size never give more batches. *)
Theorem num_batches_monotone (options options' : Options) (w w' : World) :
  (length (entitlements w) ≤ length (entitlements w'))%nat →
  opt_batch_size options' ≤ opt_batch_size options →
  ∃ n n',
    num_batches (count w) (batch_size options) = Ok n
    ∧ num_batches (count w') (batch_size options') = Ok n'
    ∧ 0 ≤ n ≤ n'.
Proof.
  intros Hlen Hsize.
  destruct (batch_size_clamp options) as [HB H1].
  destruct (batch_size_clamp options') as [HB' H1'].
  pose proof (count_nonneg w) as HN. pose proof (count_nonneg w') as HN'.
  assert (HNN : count w ≤ count w') by (unfold count; lia).
  assert (HBB : batch_size options' ≤ batch_size options) by lia.
  exists (ceil_div (count w) (batch_size options)),
         (ceil_div (count w') (batch_size options')).
  split; [by apply num_batches_ceil |]. split; [by apply num_batches_ceil |].
  split; [by apply ceil_div_nonneg |].
  pose proof (ceil_div_sandwich (count w) (batch_size options) H1) as [Hlo _].
  pose proof (ceil_div_sandwich (count w') (batch_size options') H1') as [_ Hhi].
  pose proof (ceil_div_nonneg (count w') (batch_size options') HN' H1').
  nia.
Qed.

Lemma num_batches_monotone_witness :
  ∃ n n',
    num_batches (count (world_with 7)) (batch_size {| opt_commit := true; opt_batch_size := 5 |})
    = Ok n
    ∧ num_batches (count (world_with 10))
        (batch_size {| opt_commit := true; opt_batch_size := 3 |}) = Ok n'
    ∧ 0 ≤ n ≤ n'.
Proof.
  apply (num_batches_monotone {| opt_commit := true; opt_batch_size := 5 |}
           {| opt_commit := true; opt_batch_size := 3 |} (world_with 7) (world_with 10)).
  - vm_compute. repeat constructor.
  - vm_compute. discriminate.
Defined.

(** X8.  A commit run logs three records; the number it announces
    ("Enqueuing %d ...") and the number it reports at the end ("Done.
    Successfully enqueued %d tasks.") are both the number of tasks it has
    added to the queue. *)
Theorem logged_count_is_enqueued_count (options : Options) (w : World) :
  opt_commit options = true →
  ∃ w' tasks,
    handle options w = Ok w'
    ∧ task_queue w' = task_queue w ++ tasks
    ∧ log w'
      = log w ++
        [Py.mkLog Py.INFO "Looking for entitlements which may be expirable." [];
         Py.mkLog Py.INFO "Enqueuing %d entitlement expiration tasks."
           [Py.Int (Z.of_nat (length tasks))];
         Py.mkLog Py.INFO "Done. Successfully enqueued %d tasks."
           [Py.Int (Z.of_nat (length tasks))]].
Proof.
  intros Hc. eexists _, _. split; [by apply handle_commit |]. simpl.
  split; [done |].
  rewrite length_batches; [done | apply count_nonneg | apply batch_size_clamp].
Qed.

Lemma logged_count_is_enqueued_count_witness :
  ∃ w',
    handle {| opt_commit := true; opt_batch_size := 4 |} (world_with 10) = Ok w'
    ∧ length (task_queue w') = 3%nat
    ∧ last (log w')
      = Some (Py.mkLog Py.INFO "Done. Successfully enqueued %d tasks." [Py.Int 3]).
Proof.
  destruct (logged_count_is_enqueued_count
              {| opt_commit := true; opt_batch_size := 4 |} (world_with 10))
    as (w' & tasks & H1 & H2 & H3).
  - reflexivity.
  - assert (Hw : w' = {| entitlements := entitlements (world_with 10);
                         task_queue := batches 10 4;
                         log := [Py.mkLog Py.INFO
                                   "Looking for entitlements which may be expirable." [];
                                 Py.mkLog Py.INFO
                                   "Enqueuing %d entitlement expiration tasks." [Py.Int 3];
                                 Py.mkLog Py.INFO
                                   "Done. Successfully enqueued %d tasks." [Py.Int 3]] |}).
    { assert (Hok : handle {| opt_commit := true; opt_batch_size := 4 |} (world_with 10)
                    = Ok {| entitlements := entitlements (world_with 10);
                            task_queue := batches 10 4;
                            log := [Py.mkLog Py.INFO
                                      "Looking for entitlements which may be expirable." [];
                                    Py.mkLog Py.INFO
                                      "Enqueuing %d entitlement expiration tasks." [Py.Int 3];
                                    Py.mkLog Py.INFO
                                      "Done. Successfully enqueued %d tasks." [Py.Int 3]] |})
        by reflexivity.
      rewrite H1 in Hok. by injection Hok. }
    exists w'. split; [exact H1 |]. rewrite Hw. split; reflexivity.
Defined.

End ExpireOldEntitlementsMore.

(** ** [sync_courses], further *)

Section SyncCoursesMore.

Import SyncCourses.

Variable user_from_str : string → option User.
Variable from_string : option string → option CourseKey.
Variable text_type : CourseKey → string.

(** The loop over a list in two parts: the second part starts where the
    first one ends, unless the first one raised. *)
Lemma sync_course_runs_app (instructor : User) (first rest : list CourseRun) (w : World) :
  sync_course_runs from_string text_type instructor (first ++ rest) w
  = match sync_course_runs from_string text_type instructor first w with
    | (w1, Ok _) => sync_course_runs from_string text_type instructor rest w1
    | (w1, Raise e) => (w1, Raise e)
    end.
Proof.
  revert w. induction first as [| course_run first IH]; intros w; [done |].
  simpl. destruct (sync_course_run _ _ _ _ _) as [w0 [[] | e]]; [apply IH | done].
Qed.

(** The records of a run and the growth of the modulestore. *)
Lemma sync_course_runs_records (instructor : User) (course_runs : list CourseRun) (w : World) :
  Forall (fun course_run => is_Some (from_string (key course_run))) course_runs →
  ∃ w' records,
    sync_course_runs from_string text_type instructor course_runs w = (w', Ok tt)
    ∧ log w' = log w ++ records
    ∧ length records = length course_runs
    ∧ Forall (fun r => Py.log_level r = Py.INFO ∨ Py.log_level r = Py.WARNING) records
    ∧ size (modulestore w')
      = (size (modulestore w)
         + length (filter (fun r => Py.log_level r = Py.INFO) records))%nat
    ∧ dom (modulestore w')
      = dom (modulestore w) ∪ list_to_set (keys_of from_string course_runs).
Proof.
  intros Hvalid. revert w.
  induction Hvalid as [| course_run rest [k Hk] _ IH]; intros w.
  - exists w, []. simpl. rewrite app_nil_r, Nat.add_0_r.
    repeat split; [constructor |].
    unfold keys_of. simpl. by rewrite union_empty_r_L.
  - simpl. unfold keys_of. simpl. rewrite Hk. simpl. fold (keys_of from_string rest).
    destruct (modulestore w !! k) as [existing |] eqn:Hex.
    + rewrite (sync_course_run_duplicate from_string text_type _ _ _ _ _ Hk Hex).
      destruct (IH (logger Py.WARNING "Course already exists for %s, %s, %s. Skipping"
                      [Py.Str (org k); Py.Str (course k); Py.Str (run k)] (record_call k w)))
        as (w' & records & Hrun & Hlog & Hlen & Hlevels & Hsize & Hdom).
      eexists w', (_ :: records). split; [done |].
      split; [rewrite Hlog; simpl; by rewrite <- app_assoc |].
      split; [simpl; by rewrite Hlen |].
      split; [constructor; [by right | done] |].
      split.
      * rewrite Hsize, filter_cons. simpl. done.
      * rewrite Hdom. simpl. apply elem_of_dom_2 in Hex.
        rewrite (assoc_L (∪)). f_equal.
        rewrite (comm_L (∪)). symmetry. apply subseteq_union_1_L.
        by apply singleton_subseteq_l.
    + rewrite (sync_course_run_new from_string text_type _ _ _ _ Hk Hex).
      destruct (IH (logger Py.INFO "Created {}" [Py.Str (text_type k)]
                      (store_course (course_for instructor k course_run) (record_call k w))))
        as (w' & records & Hrun & Hlog & Hlen & Hlevels & Hsize & Hdom).
      eexists w', (_ :: records). split; [done |].
      split; [rewrite Hlog; simpl; by rewrite <- app_assoc |].
      split; [simpl; by rewrite Hlen |].
      split; [constructor; [by left | done] |].
      split.
      * rewrite Hsize, filter_cons. simpl.
        rewrite map_size_insert_None by done. lia.
      * rewrite Hdom. simpl. rewrite dom_insert_L.
        rewrite (assoc_L (∪)). f_equal. apply (comm_L (∪)).
Qed.

(** When every entry's course exists already the run only warns. *)
Lemma sync_course_runs_all_present (instructor : User) (course_runs : list CourseRun)
    (w : World) :
  Forall (fun course_run =>
            ∃ k, from_string (key course_run) = Some k ∧ is_Some (modulestore w !! k))
         course_runs →
  ∃ w' records,
    sync_course_runs from_string text_type instructor course_runs w = (w', Ok tt)
    ∧ modulestore w' = modulestore w
    ∧ log w' = log w ++ records
    ∧ length records = length course_runs
    ∧ Forall (fun r => Py.log_level r = Py.WARNING) records.
Proof.
  intros Hall. revert w Hall.
  induction course_runs as [| course_run rest IH]; intros w Hall.
  - exists w, []. simpl. rewrite app_nil_r. repeat split. constructor.
  - apply Forall_cons_1 in Hall as [(k & Hk & [existing Hex]) Hrest]. simpl.
    rewrite (sync_course_run_duplicate from_string text_type _ _ _ _ _ Hk Hex).
    destruct (IH (logger Py.WARNING "Course already exists for %s, %s, %s. Skipping"
                    [Py.Str (org k); Py.Str (course k); Py.Str (run k)] (record_call k w)))
      as (w' & records & Hrun & Hstore & Hlog & Hlen & Hlevels); [done |].
    eexists w', (_ :: records). split; [done |]. split; [done |].
    split; [rewrite Hlog; simpl; by rewrite <- app_assoc |].
    split; [simpl; by rewrite Hlen |].
    by constructor.
Qed.

(** X9.  An entry whose key [CourseKey.from_string] rejects ends the
    command with [InvalidKeyError]: the entries before it have been
    processed (one call of [create_new_course_in_store] and one log
    record each, their courses in the modulestore), the entries after it
    are not looked at. *)
Theorem invalid_key_stops_the_run
    (name : string) (instructor : User) (before after : list CourseRun)
    (bad : CourseRun) (w : World) :
  user_from_str name = Some instructor →
  Forall (fun course_run => is_Some (from_string (key course_run))) before →
  from_string (key bad) = None →
  ∃ w',
    handle user_from_str from_string text_type name (before ++ bad :: after) w
    = (w', Raise Py.InvalidKeyError)
    ∧ handle user_from_str from_string text_type name before w = (w', Ok tt)
    ∧ create_calls w' = create_calls w ++ keys_of from_string before
    ∧ length (log w') = (length (log w) + length before)%nat
    ∧ dom (modulestore w')
      = dom (modulestore w) ∪ list_to_set (keys_of from_string before).
Proof.
  intros Hu Hvalid Hbad.
  destruct (sync_course_runs_spec from_string text_type instructor before w Hvalid)
    as (w' & Hrun & Hcalls & Hlen & _).
  destruct (sync_course_runs_records instructor before w Hvalid)
    as (w'' & records & Hrun' & _ & _ & _ & _ & Hdom).
  rewrite Hrun in Hrun'. injection Hrun' as <-.
  exists w'. unfold handle, get_user. rewrite Hu.
  rewrite sync_course_runs_app, Hrun. simpl.
  unfold sync_course_run. rewrite Hbad. done.
Qed.

(** X10.  Running the command a second time with the same catalog
    creates nothing: the modulestore stays as the first run left it, and
    the second run logs one warning per entry, after calling
    [create_new_course_in_store] for each entry again. *)
Theorem second_run_creates_nothing
    (name : string) (instructor : User) (course_runs : list CourseRun) (w : World) :
  user_from_str name = Some instructor →
  Forall (fun course_run => is_Some (from_string (key course_run))) course_runs →
  ∃ w1 w2 warnings,
    handle user_from_str from_string text_type name course_runs w = (w1, Ok tt)
    ∧ handle user_from_str from_string text_type name course_runs w1 = (w2, Ok tt)
    ∧ modulestore w2 = modulestore w1
    ∧ log w2 = log w1 ++ warnings
    ∧ length warnings = length course_runs
    ∧ Forall (fun r => Py.log_level r = Py.WARNING) warnings
    ∧ create_calls w2 = create_calls w1 ++ keys_of from_string course_runs.
Proof.
  intros Hu Hvalid.
  destruct (sync_course_runs_spec from_string text_type instructor course_runs w Hvalid)
    as (w1 & Hrun1 & _ & _ & Hstore).
  assert (Hall : Forall (fun course_run =>
                   ∃ k, from_string (key course_run) = Some k
                        ∧ is_Some (modulestore w1 !! k)) course_runs).
  { rewrite Forall_forall in Hvalid. apply Forall_forall.
    intros course_run Hin. destruct (Hvalid _ Hin) as [k Hk].
    exists k. split; [done |]. rewrite Hstore.
    destruct (modulestore w !! k); [done |].
    destruct (list_find_elem_of (has_key from_string k) course_runs course_run Hin Hk)
      as [found ->].
    done. }
  destruct (sync_course_runs_all_present instructor course_runs w1 Hall)
    as (w2 & warnings & Hrun2 & Hsame & Hlog & Hlen & Hlevels).
  destruct (sync_course_runs_spec from_string text_type instructor course_runs w1 Hvalid)
    as (w2' & Hrun2' & Hcalls & _).
  rewrite Hrun2 in Hrun2'. injection Hrun2' as <-.
  exists w1, w2, warnings. unfold handle, get_user. rewrite Hu.
  by repeat split.
Qed.

(** X11.  For a catalog with well-formed keys the command logs one
    record per entry, an info record for a course it created and a
    warning for one that existed; the modulestore afterwards holds the
    keys it held and the keys of the catalog, and has grown by as many
    courses as there are info records. *)
Theorem modulestore_grows_by_created
    (name : string) (instructor : User) (course_runs : list CourseRun) (w : World) :
  user_from_str name = Some instructor →
  Forall (fun course_run => is_Some (from_string (key course_run))) course_runs →
  ∃ w' records,
    handle user_from_str from_string text_type name course_runs w = (w', Ok tt)
    ∧ log w' = log w ++ records
    ∧ length records = length course_runs
    ∧ Forall (fun r => Py.log_level r = Py.INFO ∨ Py.log_level r = Py.WARNING) records
    ∧ size (modulestore w')
      = (size (modulestore w)
         + length (filter (fun r => Py.log_level r = Py.INFO) records))%nat
    ∧ dom (modulestore w')
      = dom (modulestore w) ∪ list_to_set (keys_of from_string course_runs).
Proof.
  intros Hu Hvalid. unfold handle, get_user. rewrite Hu.
  by apply sync_course_runs_records.
Qed.

(** A course that exists stays as it is, whatever the catalog and
    however the loop ends. *)
Lemma sync_course_runs_keeps (instructor : User) (course_runs : list CourseRun)
    (w : World) (k : CourseKey) (c : Course) :
  modulestore w !! k = Some c →
  modulestore (sync_course_runs from_string text_type instructor course_runs w).1 !! k
  = Some c.
Proof.
  revert w. induction course_runs as [| course_run rest IH]; intros w Hk; [done |].
  simpl. destruct (from_string (key course_run)) as [k0 |] eqn:Hk0.
  - destruct (modulestore w !! k0) as [existing |] eqn:Hex.
    + rewrite (sync_course_run_duplicate from_string text_type _ _ _ _ _ Hk0 Hex).
      by apply IH.
    + rewrite (sync_course_run_new from_string text_type _ _ _ _ Hk0 Hex).
      apply IH. simpl. rewrite lookup_insert_ne; [done |]. congruence.
  - unfold sync_course_run. by rewrite Hk0.
Qed.

(** A course that the loop adds is the course of the first entry with
    its key, whatever the catalog and however the loop ends. *)
Lemma sync_course_runs_added (instructor : User) (course_runs : list CourseRun)
    (w : World) (k : CourseKey) (c : Course) :
  modulestore w !! k = None →
  modulestore (sync_course_runs from_string text_type instructor course_runs w).1 !! k
  = Some c →
  ∃ (i : nat) course_run,
    course_runs !! i = Some course_run
    ∧ from_string (key course_run) = Some k
    ∧ (∀ (j : nat) earlier, course_runs !! j = Some earlier → (j < i)%nat →
         from_string (key earlier) ≠ Some k)
    ∧ c = course_for instructor k course_run.
Proof.
  revert w. induction course_runs as [| course_run rest IH]; intros w Hnone Hsome.
  - simpl in Hsome. congruence.
  - simpl in Hsome. destruct (from_string (key course_run)) as [k0 |] eqn:Hk0.
    + destruct (modulestore w !! k0) as [existing |] eqn:Hex.
      * rewrite (sync_course_run_duplicate from_string text_type _ _ _ _ _ Hk0 Hex)
          in Hsome.
        apply IH in Hsome; [| exact Hnone].
        destruct Hsome as (i & found & Hi & Hfound & Hfirst & ->).
        exists (S i), found. split; [done |]. split; [done |]. split; [| done].
        intros [| j] earlier Hj Hlt.
        -- injection Hj as <-. rewrite Hk0. intros [= ->]. congruence.
        -- apply (Hfirst j); [done | lia].
      * rewrite (sync_course_run_new from_string text_type _ _ _ _ Hk0 Hex) in Hsome.
        destruct (decide (k0 = k)) as [-> | Hne].
        -- rewrite (sync_course_runs_keeps _ _ _ k (course_for instructor k course_run))
             in Hsome by apply lookup_insert_eq.
           injection Hsome as <-.
           exists 0%nat, course_run. split; [done |]. split; [done |].
           split; [intros j earlier _ Hlt; lia | done].
        -- apply IH in Hsome; [| simpl; by rewrite lookup_insert_ne].
           destruct Hsome as (i & found & Hi & Hfound & Hfirst & ->).
           exists (S i), found. split; [done |]. split; [done |]. split; [| done].
           intros [| j] earlier Hj Hlt.
           ++ injection Hj as <-. rewrite Hk0. congruence.
           ++ apply (Hfirst j); [done | lia].
    + unfold sync_course_run in Hsome. rewrite Hk0 in Hsome. simpl in Hsome. congruence.
Qed.

(** X12.  Every course that is in the modulestore after the run and was
    not there before comes from the catalog, whether the run returns or
    is ended by an exception: the instructor resolves to a user, and the
    course is the split course of the first entry with its key, with
    that entry's title as display name and that user as creator. *)
Theorem new_courses_come_from_the_catalog
    (name : string) (course_runs : list CourseRun) (w : World)
    (k : CourseKey) (c : Course) :
  modulestore w !! k = None →
  modulestore (handle user_from_str from_string text_type name course_runs w).1 !! k
  = Some c →
  ∃ instructor (i : nat) course_run,
    user_from_str name = Some instructor
    ∧ course_runs !! i = Some course_run
    ∧ from_string (key course_run) = Some k
    ∧ (∀ (j : nat) earlier, course_runs !! j = Some earlier → (j < i)%nat →
         from_string (key earlier) ≠ Some k)
    ∧ c = {| id := k; store_type := split;
             fields := {| display_name := title course_run |};
             creator := instructor |}.
Proof.
  intros Hnone Hsome. unfold handle, get_user in Hsome.
  destruct (user_from_str name) as [instructor |] eqn:Hu.
  - destruct (sync_course_runs_added instructor course_runs w k c Hnone Hsome)
      as (i & course_run & Hi & Hk & Hfirst & ->).
    by exists instructor, i, course_run.
  - simpl in Hsome. congruence.
Qed.

End SyncCoursesMore.

Section SyncCoursesMoreExamples.

Import SyncCourses.

(** A catalog entry without a key. *)
Lemma invalid_key_stops_the_run_witness :
  ∃ w',
    handle example_user_from_str example_from_string example_text_type
      "staff@example.com"
      ([demo_run] ++ {| key := None; title := Some "No key" |} :: [other_run])
      empty_world
    = (w', Raise Py.InvalidKeyError)
    ∧ create_calls w' = [demo_key]
    ∧ dom (modulestore w') = dom (modulestore empty_world) ∪ {[ demo_key ]}.
Proof.
  destruct (invalid_key_stops_the_run example_user_from_str example_from_string
              example_text_type "staff@example.com" staff [demo_run] [other_run]
              {| key := None; title := Some "No key" |} empty_world)
    as (w' & H1 & _ & H2 & _ & H3).
  - reflexivity.
  - repeat constructor. by eexists.
  - reflexivity.
  - exists w'. split; [exact H1 |]. split; [exact H2 |].
    rewrite H3. f_equal.
Defined.

Lemma second_run_creates_nothing_witness :
  ∃ w1 w2,
    handle example_user_from_str example_from_string example_text_type
      "staff@example.com" [demo_run; other_run] empty_world = (w1, Ok tt)
    ∧ handle example_user_from_str example_from_string example_text_type
        "staff@example.com" [demo_run; other_run] w1 = (w2, Ok tt)
    ∧ modulestore w2 = modulestore w1.
Proof.
  destruct (second_run_creates_nothing example_user_from_str example_from_string
              example_text_type "staff@example.com" staff [demo_run; other_run] empty_world)
    as (w1 & w2 & warnings & H1 & H2 & H3 & _).
  - reflexivity.
  - repeat constructor; by eexists.
  - exists w1, w2. split; [exact H1 |]. split; [exact H2 | exact H3].
Defined.

Lemma modulestore_grows_by_created_witness :
  ∃ w' records,
    handle example_user_from_str example_from_string example_text_type
      "staff@example.com" [demo_run; other_run] world_with_demo = (w', Ok tt)
    ∧ log w' = log world_with_demo ++ records
    ∧ size (modulestore w')
      = (size (modulestore world_with_demo)
         + length (filter (fun r => Py.log_level r = Py.INFO) records))%nat.
Proof.
  destruct (modulestore_grows_by_created example_user_from_str example_from_string
              example_text_type "staff@example.com" staff [demo_run; other_run]
              world_with_demo)
    as (w' & records & H1 & H2 & _ & _ & H3 & _).
  - reflexivity.
  - repeat constructor; by eexists.
  - exists w', records. split; [exact H1 |]. split; [exact H2 | exact H3].
Defined.

(** A run that a malformed key ends has created the demonstration
    course before. *)
Lemma new_courses_come_from_the_catalog_witness :
  ∃ c,
    modulestore
      (handle example_user_from_str example_from_string example_text_type
         "staff@example.com"
         [demo_run; {| key := None; title := Some "No key" |}; other_run]
         empty_world).1 !! demo_key = Some c
    ∧ creator c = staff
    ∧ fields c = {| display_name := Some "Demonstration" |}.
Proof.
  exists (course_for staff demo_key demo_run).
  split; [reflexivity |].
  destruct (new_courses_come_from_the_catalog example_user_from_str example_from_string
              example_text_type "staff@example.com"
              [demo_run; {| key := None; title := Some "No key" |}; other_run]
              empty_world demo_key (course_for staff demo_key demo_run))
    as (instructor & i & course_run & Hu & _ & _ & _ & Hc).
  - reflexivity.
  - reflexivity.
  - injection Hc as Htitle Hcreator. split; reflexivity.
Defined.

End SyncCoursesMoreExamples.

(** ** [conftest.py] *)

Section ConftestFacts.

Import Conftest.

Lemma prefix_skip (p s : string) :
  String.prefix p s = true → s = p +:+ skip (String.length p) s.
Proof.
  revert s. induction p as [| a p IH]; intros s; [done |].
  destruct s as [| b s]; [done |]. simpl.
  destruct (Ascii.ascii_dec a b) as [-> | _]; [| done].
  intros Hp. change (String b s = String b (p +:+ skip (String.length p) s)).
  f_equal. by apply IH.
Qed.

Lemma length_append (s t : string) :
  String.length (s +:+ t) = (String.length s + String.length t)%nat.
Proof.
  induction s as [| a s IH]; [done |].
  change (S (String.length (s +:+ t)) = S (String.length s + String.length t)).
  by rewrite IH.
Qed.

Lemma find_cons (sub : string) (c : Ascii.ascii) (s : string) :
  find sub (String c s)
  = if String.prefix sub (String c s) then Some O else S <$> find sub s.
Proof. reflexivity. Qed.

Lemma replace_first_cons (old new : string) (c : Ascii.ascii) (s : string) :
  replace_first old new (String c s)
  = if String.prefix old (String c s)
    then new +:+ skip (String.length old) (String c s)
    else String c (replace_first old new s).
Proof. reflexivity. Qed.

(** [find] gives the leftmost position at which [sub] occurs. *)
Lemma find_Some (sub s : string) (i : nat) :
  find sub s = Some i →
  String.substring i (String.length sub) s = sub
  ∧ ∀ j, (j < i)%nat → String.substring j (String.length sub) s ≠ sub.
Proof.
  revert i. induction s as [| c s IH]; intros i.
  - destruct sub as [| a sub]; simpl; [| done].
    intros [= <-]. split; [done | intros j Hj; lia].
  - rewrite find_cons. destruct (String.prefix sub (String c s)) eqn:Hp.
    + intros [= <-]. split; [by apply String.prefix_correct | intros j Hj; lia].
    + destruct (find sub s) as [i' |] eqn:Hf; [| done].
      intros [= <-]. destruct (IH i' eq_refl) as [Hat Hbefore].
      split; [done |]. intros [| j] Hj.
      * intros Heq. apply String.prefix_correct in Heq. congruence.
      * apply Hbefore. lia.
Qed.

Lemma find_None (sub s : string) :
  find sub s = None → ∀ j, String.substring j (String.length sub) s ≠ sub.
Proof.
  induction s as [| c s IH].
  - destruct sub as [| a sub]; simpl; [done |].
    intros _ j. by destruct j.
  - rewrite find_cons. destruct (String.prefix sub (String c s)) eqn:Hp; [done |].
    destruct (find sub s) eqn:Hf; [done |]. intros _ [| j].
    + intros Heq. apply String.prefix_correct in Heq. congruence.
    + by apply IH.
Qed.

Lemma replace_first_None (old new s : string) :
  find old s = None → replace_first old new s = s.
Proof.
  induction s as [| c s IH].
  - by destruct old.
  - rewrite find_cons, replace_first_cons.
    destruct (String.prefix old (String c s)); [done |].
    destruct (find old s); [done |]. intros _. f_equal. by apply IH.
Qed.

Lemma replace_first_Some (old new s : string) (i : nat) :
  find old s = Some i →
  replace_first old new s
  = String.substring 0 i s +:+ new +:+ skip (i + String.length old) s.
Proof.
  revert i. induction s as [| c s IH]; intros i.
  - destruct old as [| a old]; simpl; [| done]. by intros [= <-].
  - rewrite find_cons, replace_first_cons.
    destruct (String.prefix old (String c s)) eqn:Hp.
    + by intros [= <-].
    + destruct (find old s) as [i' |]; [| done]. intros [= <-].
      change (String c (replace_first old new s)
              = String c (String.substring 0 i' s +:+ new
                          +:+ skip (i' + String.length old) s)).
      f_equal. by apply IH.
Qed.

(** A string cut at the leftmost occurrence of [sub]. *)
Lemma find_split (sub s : string) (i : nat) :
  find sub s = Some i →
  s = String.substring 0 i s +:+ sub +:+ skip (i + String.length sub) s.
Proof.
  revert i. induction s as [| c s IH]; intros i.
  - destruct sub as [| a sub]; simpl; [| done]. by intros [= <-].
  - rewrite find_cons. destruct (String.prefix sub (String c s)) eqn:Hp.
    + intros [= <-]. by apply prefix_skip.
    + destruct (find sub s) as [i' |]; [| done]. intros [= <-].
      change (String c s
              = String c (String.substring 0 i' s +:+ sub
                          +:+ skip (i' + String.length sub) s)).
      f_equal. by apply IH.
Qed.

(** X13.  [pytest_configure] leaves the process title alone when the
    process is not an xdist worker ([config] has no [workerinput]) and
    when the title of a worker does not contain "python"; when
    [workerinput] has no 'workerid' it raises [KeyError] and sets no
    title. *)
Theorem pytest_configure_keeps_other_titles (config : Config) (proctitle : string) :
  (workerinput config = None →
   pytest_configure config proctitle = Returns proctitle)
  ∧ (∀ workerinput_ workerid,
       workerinput config = Some workerinput_ →
       workerinput_ !! "workerid" = Some workerid →
       find "python" proctitle = None →
       pytest_configure config proctitle = Returns proctitle
       ∧ ∀ j, String.substring j 6 proctitle ≠ "python")
  ∧ (∀ workerinput_,
       workerinput config = Some workerinput_ →
       workerinput_ !! "workerid" = None →
       pytest_configure config proctitle = KeyError "workerid").
Proof.
  unfold pytest_configure. split; [| split].
  - by intros ->.
  - intros wi workerid -> -> Hnone. split.
    + by rewrite replace_first_None.
    + apply (find_None "python" proctitle Hnone).
  - by intros wi -> ->.
Qed.

Lemma pytest_configure_keeps_other_titles_witness :
  pytest_configure (worker "gw0") "/usr/bin/pypy3 -m pytest"
  = Returns "/usr/bin/pypy3 -m pytest".
Proof.
  destruct (pytest_configure_keeps_other_titles (worker "gw0") "/usr/bin/pypy3 -m pytest")
    as (_ & H & _).
  apply (H {[ "workerid" := "gw0" ]} "gw0"); reflexivity.
Defined.

(** X14.  On an xdist worker whose title contains "python",
    [pytest_configure] replaces the leftmost occurrence, and that one
    only, by "py_xdist_" followed by the worker id: what stands before
    and after that occurrence, later occurrences of "python" included,
    is kept. *)
Theorem pytest_configure_renames_the_worker
    (config : Config) (workerinput_ : gmap string string) (workerid proctitle : string)
    (i : nat) :
  workerinput config = Some workerinput_ →
  workerinput_ !! "workerid" = Some workerid →
  find "python" proctitle = Some i →
  let before := String.substring 0 i proctitle in
  let after := skip (i + 6) proctitle in
  proctitle = before +:+ "python" +:+ after
  ∧ (∀ j, (j < i)%nat → String.substring j 6 proctitle ≠ "python")
  ∧ pytest_configure config proctitle
    = Returns (before +:+ "py_xdist_" +:+ workerid +:+ after).
Proof.
  intros Hw Hid Hfind before after.
  split; [apply (find_split "python" proctitle i Hfind) |].
  split; [apply (find_Some "python" proctitle i Hfind) |].
  unfold pytest_configure. rewrite Hw, Hid.
  rewrite (replace_first_Some "python" _ proctitle i Hfind).
  reflexivity.
Qed.

Lemma pytest_configure_renames_the_worker_witness :
  pytest_configure (worker "gw0") "/usr/bin/python -m pytest common/lib/python_tests"
  = Returns "/usr/bin/py_xdist_gw0 -m pytest common/lib/python_tests".
Proof.
  destruct (pytest_configure_renames_the_worker (worker "gw0") {[ "workerid" := "gw0" ]}
              "gw0" "/usr/bin/python -m pytest common/lib/python_tests" 9)
    as (_ & _ & H).
  - reflexivity.
  - reflexivity.
  - reflexivity.
  - exact H.
Defined.

End ConftestFacts.
